(** * reddit-to-slack: the keyword / relevance / delivery pipeline of [reddit.py]

    A shallow embedding of [src/reddit.py] and the properties its
    specification states about it.

    Layout: first the embedding (text, data, outside world, the five
    functions and [main]), then the scenarios used as concrete inputs, then
    the lemmas and the theorems, one per specification claim. *)

From Stdlib Require Import List String Ascii ZArith NArith Bool Lia Arith.
From Stdlib Require Import Sorting.Sorted Sorting.Permutation.
Import ListNotations.

Local Open Scope string_scope.
Local Open Scope list_scope.
Local Open Scope Z_scope.

(* ================================================================== *)
(** * Text *)
(* ================================================================== *)

(** Python [str] values are modelled as Rocq strings whose characters are
    read as the code points U+0000..U+00FF.  On that range the predicates
    below are CPython's own ([str.isdigit], [str.isspace], [str.lower]);
    code points above U+00FF are outside the model. *)
Module Text.

Definition ord (c : ascii) : N := N_of_ascii c.
Definition chr (n : N) : ascii := ascii_of_N n.

Definition between (lo hi : N) (c : ascii) : bool :=
  ((lo <=? ord c) && (ord c <=? hi))%N.

(** [c.isdigit()]: the decimal digits 0-9, and the superscripts U+00B2,
    U+00B3 and U+00B9, whose Numeric_Type is Digit. *)
Definition isdigit (c : ascii) : bool :=
  between 48 57 c || (ord c =? 178)%N || (ord c =? 179)%N || (ord c =? 185)%N.

(** The characters [int()] reads as decimal digits (category Nd). *)
Definition isdecimal (c : ascii) : bool := between 48 57 c.

Definition digit_value (c : ascii) : Z := Z.of_N (ord c) - 48.

(** [c.isspace()]. *)
Definition isspace (c : ascii) : bool :=
  between 9 13 c || between 28 32 c || (ord c =? 133)%N || (ord c =? 160)%N.

(** [c.lower()]: A-Z and the upper-case letters U+00C0..U+00DE (U+00D7, the
    multiplication sign, is not a letter) move 32 places up. *)
Definition lower_char (c : ascii) : ascii :=
  if between 65 90 c || (between 192 222 c && negb (ord c =? 215)%N)
  then chr (ord c + 32) else c.

Fixpoint lower (s : string) : string :=
  match s with
  | EmptyString => EmptyString
  | String c rest => String (lower_char c) (lower rest)
  end.

Fixpoint starts_with (p s : string) : bool :=
  match p, s with
  | EmptyString, _ => true
  | String _ _, EmptyString => false
  | String a p', String b s' => Ascii.eqb a b && starts_with p' s'
  end.

(** [k in t] on strings: [k] occurs in [t] as a contiguous run.  The empty
    string occurs in every string. *)
Fixpoint contains (k t : string) : bool :=
  starts_with k t ||
  match t with
  | EmptyString => false
  | String _ t' => contains k t'
  end.

(** [filter(pred, s)] joined back with [''.join]. *)
Fixpoint join_filter (pred : ascii -> bool) (s : string) : string :=
  match s with
  | EmptyString => EmptyString
  | String c rest =>
      if pred c then String c (join_filter pred rest) else join_filter pred rest
  end.

Fixpoint lstrip (s : string) : string :=
  match s with
  | EmptyString => EmptyString
  | String c rest => if isspace c then lstrip rest else s
  end.

(** Drops the blanks at the end: a blank is kept only when something
    that is kept follows it. *)
Fixpoint rstrip (s : string) : string :=
  match s with
  | EmptyString => EmptyString
  | String c rest =>
      match rstrip rest with
      | EmptyString => if isspace c then EmptyString else String c EmptyString
      | kept => String c kept
      end
  end.

(** [s.strip()]. *)
Definition strip (s : string) : string := rstrip (lstrip s).

Fixpoint decimal_value (acc : Z) (s : string) : option Z :=
  match s with
  | EmptyString => Some acc
  | String c rest =>
      if isdecimal c then decimal_value (10 * acc + digit_value c) rest
      else None
  end.

(** The most digits [int()] converts from a string: CPython's default
    [sys.int_max_str_digits].  Leading zeros count. *)
Definition int_max_str_digits : nat := 4300.

(** [int(s)] for the strings that reach it here.  Its only argument in the
    program is the result of [''.join(filter(str.isdigit, ...))], a run of
    [isdigit] characters: it is a [ValueError] ([None]) when that run is
    empty, when it is longer than [int_max_str_digits], and when it holds a
    character that is not a decimal digit (a superscript); it is the base-10
    value otherwise, leading zeros allowed.  The other spellings [int()]
    accepts (sign, blanks around, underscores) cannot reach it and are not
    modelled. *)
Definition int_of_digit_run (s : string) : option Z :=
  match s with
  | EmptyString => None
  | String _ _ =>
      if (String.length s <=? int_max_str_digits)%nat
      then decimal_value 0 s
      else None
  end.

(** The specification's notion: [k] is a case-insensitive substring of [t]
    when it occurs in [t] once the case of both is folded. *)
Definition ci_substring (k t : string) : bool := contains (lower k) (lower t).

Definition newline : string := String (ascii_of_nat 10) EmptyString.

End Text.

(* ================================================================== *)
(** * Data *)
(* ================================================================== *)

(** What the program reads of a PRAW submission. *)
Record Submission := {
  sub_title : string;
  sub_selftext : string;
  sub_url : string;
  sub_permalink : string
}.

(** The dict built by [fetch_matching_posts] for each match. *)
Record Post := {
  title : string;
  subreddit : string;
  url : string;
  permalink : string;
  text : string
}.

(** Exceptions.  All of them derive from Python's [Exception], the class
    the three handlers of the program catch. *)
Inductive exn :=
| ValueError
| IndexError
| AttributeError
| MissingRequiredAttribute      (* praw: a required setting is absent *)
| AuthenticationError           (* the service rejects the credentials *)
| RequestError (detail : string). (* any other failure of a network call *)

Inductive outcome (A : Type) :=
| Ret (a : A)
| Raise (e : exn).
Arguments Ret {A} a.
Arguments Raise {A} e.

(** The handle returned by [praw.Reddit(...)]. *)
Record Reddit := {
  client_id : option string;
  client_secret : option string;
  user_agent : option string
}.

(** The listing [subreddit.hot(limit=...)] as the [for] loop consumes it:
    it yields submissions one by one and either ends or raises. *)
Inductive feed :=
| Exhausted
| Yield (post : Submission) (rest : feed)
| Broken (e : exn).

(** A chat completion, each of its choices reduced to [message.content],
    which the service may leave [None]. *)
Record ChatCompletion := { choices : list (option string) }.

(** The response of [requests.post]. *)
Record Response := { status_code : Z; body_text : string }.

(** The records written through [logging], one constructor per call site. *)
Inductive log_record :=
| Starting
| Scanning (sub : string)
| FetchError (sub : string) (e : exn)
| OpenAIError (e : exn)
| SlackError (code : Z) (body : string)
| SlackSendFailed (e : exn)
| NoKeywordMatches
| Sent (n : nat)
| NoPostsPassed.

Inductive level := INFO | ERROR.

(** What a run does that is visible from outside, in order. *)
Inductive event :=
| Construct
| Fetch (sub : string) (limit : Z)
| Ask (prompt : string)
| Deliver (hook : option string) (message : string) (res : outcome Response)
| Log (lvl : level) (r : log_record).

(* ================================================================== *)
(** * Configuration *)
(* ================================================================== *)

Definition SUBREDDITS : list string := [
    "Netherlands"; "Belgium"; "France"; "Sweden"; "Denmark"; "Europe";
    "germany"; "Amsterdam"; "thehague"; "Rotterdam"; "Utrecht"; "Brussels";
    "Paris"; "London"; "Antwerpen"; "luxembourg"; "milano"; "rome";
    "ZeroWaste"; "ThriftStoreHauls"; "BuyItForLife"; "Frugal"; "Minimalism";
    "SustainableLiving"; "SecondHand"; "InteriorDesign"; "interiordecorating";
    "DesignMyRoom"; "MaleLivingSpace"; "FemaleLivingSpace"; "HomeDecorating";
    "CozyPlaces"; "RoomPorn"; "amateurroomporn"; "HomeImprovement"; "DIY";
    "ApartmentHacks"; "ScandinavianInterior"; "furniture"; "Mid_Century";
    "WhatIsThisThing"
]%string.

Definition KEYWORDS : list string := [
    "secondhand"; "second-hand"; "thrift"; "thrifted"; "vintage"; "used";
    "pre-owned"; "preloved"; "pre-loved"; "reclaimed"; "upcycled";
    "repurposed"; "handmade"; "antique"; "restored"; "retro"; "sustainable";
    "eco-friendly"; "eco friendly"; "zero waste"; "minimalist"; "minimalism";
    "buy it for life"; "durable"; "timeless"; "reuse"; "resale"; "interior";
    "interior design"; "home decor"; "furniture"; "sofa"; "table"; "chair";
    "cabinet"; "dresser"; "sideboard"; "dining set"; "lamp"; "rug"; "mirror";
    "art"; "poster"; "wall decor"; "shelving"; "bookshelf"; "tv stand"; "bed";
    "bed frame"; "nightstand"; "storage"; "cozy"; "scandinavian";
    "mid-century"; "boho"; "eclectic"; "apartment"; "renovation"; "remodel";
    "decorating"
]%string.

Definition POST_LIMIT : Z := 20.
Definition MAX_POSTS_PER_DAY : Z := 10.

(* ================================================================== *)
(** * The outside world *)
(* ================================================================== *)

(** Everything the program does not compute itself: the process
    environment read at import time and the three services.  [W] is the
    state of the outside; every call may read and change it, so a service
    may answer the same request differently each time. *)
Record External (W : Type) := {
  getenv : string -> option string;
  praw_Reddit :
    option string -> option string -> option string -> W -> outcome Reddit * W;
  subreddit_hot : Reddit -> string -> Z -> W -> feed * W;
  chat_completions_create : string -> W -> outcome ChatCompletion * W;
  requests_post : option string -> string -> W -> outcome Response * W
}.
Arguments getenv {W} _ _.
Arguments praw_Reddit {W} _ _ _ _ _.
Arguments subreddit_hot {W} _ _ _ _ _.
Arguments chat_completions_create {W} _ _ _.
Arguments requests_post {W} _ _ _ _.

(** ** The monad of the program: outside state, exceptions, and the trace
    of events in the order they happen. *)
Definition M (W A : Type) : Type := W -> outcome A * W * list event.

Definition ret {W A} (a : A) : M W A := fun w => (Ret a, w, []).

Definition raise {W A} (e : exn) : M W A := fun w => (Raise e, w, []).

Definition bind {W A B} (m : M W A) (k : A -> M W B) : M W B :=
  fun w =>
    match m w with
    | (Ret a, w1, t1) =>
        match k a w1 with
        | (r, w2, t2) => (r, w2, t1 ++ t2)
        end
    | (Raise e, w1, t1) => (Raise e, w1, t1)
    end.

(** [try: body / except Exception as e: handler e]. *)
Definition try_except {W A} (body : M W A) (handler : exn -> M W A) : M W A :=
  fun w =>
    match body w with
    | (Ret a, w1, t1) => (Ret a, w1, t1)
    | (Raise e, w1, t1) =>
        match handler e w1 with
        | (r, w2, t2) => (r, w2, t1 ++ t2)
        end
    end.

Definition emit {W} (ev : event) : M W unit := fun w => (Ret tt, w, [ev]).

Definition lift {W A} (o : outcome A) : M W A := fun w => (o, w, []).

Declare Scope prog_scope.
Delimit Scope prog_scope with prog.
Notation "x <- m ;; k" := (bind m (fun x => k))
  (at level 61, m at next level, right associativity) : prog_scope.
Notation "m ;; k" := (bind m (fun _ => k))
  (at level 61, right associativity) : prog_scope.

Definition result {W A} (r : outcome A * W * list event) : outcome A :=
  fst (fst r).
Definition world_after {W A} (r : outcome A * W * list event) : W :=
  snd (fst r).
Definition trace {W A} (r : outcome A * W * list event) : list event :=
  snd r.

(* ================================================================== *)
(** * The program *)
(* ================================================================== *)

Section Program.

Context {W : Type} (ext : External W).

Local Open Scope prog_scope.

(** ** Module-level settings read from the process environment *)

Definition REDDIT_CLIENT_ID : option string := getenv ext "REDDIT_CLIENT_ID".
Definition REDDIT_CLIENT_SECRET : option string :=
  getenv ext "REDDIT_CLIENT_SECRET".
Definition REDDIT_USER_AGENT : option string := getenv ext "REDDIT_USER_AGENT".
Definition SLACK_WEBHOOK_URL : option string := getenv ext "SLACK_WEBHOOK_URL".
(** Handed to the [openai] module, whose calls belong to the outside. *)
Definition OPENAI_API_KEY : option string := getenv ext "OPENAI_API_KEY".

(** ** Calls that leave the program; each one is recorded in the trace *)

Definition call_Reddit (cid secret agent : option string) : M W Reddit :=
  fun w =>
    let (r, w1) := praw_Reddit ext cid secret agent w in (r, w1, [Construct]).

Definition call_hot (reddit : Reddit) (name : string) (limit : Z) : M W feed :=
  fun w =>
    let (f, w1) := subreddit_hot ext reddit name limit w in
    (Ret f, w1, [Fetch name limit]).

Definition call_chat (prompt : string) : M W ChatCompletion :=
  fun w =>
    let (r, w1) := chat_completions_create ext prompt w in (r, w1, [Ask prompt]).

Definition call_post (hook : option string) (message : string) : M W Response :=
  fun w =>
    let (r, w1) := requests_post ext hook message w in
    (r, w1, [Deliver hook message r]).

Definition logging_info (r : log_record) : M W unit := emit (Log INFO r).
Definition logging_error (r : log_record) : M W unit := emit (Log ERROR r).

(** ** Reddit setup *)

Definition create_reddit_instance : M W Reddit :=
  call_Reddit REDDIT_CLIENT_ID REDDIT_CLIENT_SECRET REDDIT_USER_AGENT.

(** ** Fetch and filter by keyword *)

(** [f"{post.title} {post.selftext}".lower()] *)
Definition combined_text (post : Submission) : string :=
  Text.lower (sub_title post ++ " " ++ sub_selftext post)%string.

(** [any(keyword in text for keyword in keywords)] *)
Definition any_keyword_in (keywords : list string) (text : string) : bool :=
  existsb (fun keyword => Text.contains keyword text) keywords.

Definition match_dict (subreddit_name : string) (post : Submission) : Post :=
  {| title := sub_title post;
     subreddit := subreddit_name;
     url := sub_url post;
     permalink := ("https://reddit.com" ++ sub_permalink post)%string;
     text := combined_text post |}.

(** The [for post in subreddit.hot(...)] loop.  [matches] is the list
    being appended to; when the listing raises, the loop stops and the
    exception comes back together with what [matches] holds by then. *)
Fixpoint hot_loop (subreddit_name : string) (keywords : list string)
    (listing : feed) (matches : list Post) : list Post * option exn :=
  match listing with
  | Exhausted => (matches, None)
  | Broken e => (matches, Some e)
  | Yield post rest =>
      let text := combined_text post in
      hot_loop subreddit_name keywords rest
        (if any_keyword_in keywords text
         then matches ++ [match_dict subreddit_name post]
         else matches)
  end.

Definition fetch_matching_posts (reddit : Reddit) (subreddit_name : string)
    (keywords : list string) : M W (list Post) :=
  listing <- call_hot reddit subreddit_name POST_LIMIT ;;
  match hot_loop subreddit_name keywords listing [] with
  | (matches, None) => ret matches
  | (matches, Some e) =>
      logging_error (FetchError subreddit_name e) ;; ret matches
  end.

(** ** AI filtering *)

Definition prompt_for (post : Post) : string :=
  ("You are a social media manager for Whoppah, a secondhand design marketplace. "
   ++ "Rate this Reddit post's relevance to Whoppah on a scale from 1 (not relevant) to 10 (highly relevant). "
   ++ "Only respond with a number." ++ Text.newline ++ Text.newline
   ++ "Title: " ++ title post ++ Text.newline
   ++ "Body: " ++ text post)%string.

(** [response.choices[0].message.content]: [IndexError] on an empty list of
    choices. *)
Definition first_content (response : ChatCompletion) : outcome (option string) :=
  match choices response with
  | [] => Raise IndexError
  | c :: _ => Ret c
  end.

(** [content.strip()]: [AttributeError] when the content is [None]. *)
Definition strip_content (content : option string) : outcome string :=
  match content with
  | None => Raise AttributeError
  | Some s => Ret (Text.strip s)
  end.

(** [int(''.join(filter(str.isdigit, score_text)))] *)
Definition int_of_digits (score_text : string) : outcome Z :=
  match Text.int_of_digit_run (Text.join_filter Text.isdigit score_text) with
  | None => Raise ValueError
  | Some n => Ret n
  end.

Definition score_post_with_ai (post : Post) : M W Z :=
  let prompt := prompt_for post in
  try_except
    (response <- call_chat prompt ;;
     content <- lift (first_content response) ;;
     score_text <- lift (strip_content content) ;;
     score <- lift (int_of_digits score_text) ;;
     ret score)
    (fun e => logging_error (OpenAIError e) ;; ret 0).

(** [list.sort(reverse=True, key=lambda x: x[0])].  The built-in sort is
    stable, and with [reverse=True] items of equal key still keep their
    original order.  Modelled by a stable insertion sort into descending
    order of the first component. *)
Fixpoint insert_desc {A : Type} (x : Z * A) (l : list (Z * A)) : list (Z * A) :=
  match l with
  | [] => [x]
  | y :: l' => if fst x <? fst y then y :: insert_desc x l' else x :: y :: l'
  end.

Fixpoint sort_desc {A : Type} (l : list (Z * A)) : list (Z * A) :=
  match l with
  | [] => []
  | x :: l' => insert_desc x (sort_desc l')
  end.

(** The slice [l[:k]]: the first [k] items, or, for a negative [k], all but
    the last [-k]. *)
Definition slice_to {A : Type} (l : list A) (k : Z) : list A :=
  if k <? 0
  then firstn (Z.to_nat (Z.of_nat (List.length l) + k)) l
  else firstn (Z.to_nat k) l.

(** The [for post in tqdm(posts, ...)] loop of [filter_with_ai]; [scored]
    is the list being appended to, and [tqdm] only draws a progress bar. *)
Fixpoint scoring_loop (posts : list Post) (scored : list (Z * Post))
    : M W (list (Z * Post)) :=
  match posts with
  | [] => ret scored
  | post :: rest =>
      score <- score_post_with_ai post ;;
      scoring_loop rest
        (if 0 <? score then scored ++ [(score, post)] else scored)
  end.

Definition filter_with_ai (posts : list Post) (max_results : Z)
    : M W (list Post) :=
  scored <- scoring_loop posts [] ;;
  let scored := sort_desc scored in
  ret (map snd (slice_to scored max_results)).

(** ** Slack integration *)

Definition slack_message (post : Post) : string :=
  ("*" ++ title post ++ "*" ++ Text.newline
   ++ "Subreddit: r/" ++ subreddit post ++ Text.newline
   ++ "<" ++ permalink post ++ "|View on Reddit>")%string.

(** The function has no [return]: its value is [None], here [tt]. *)
Fixpoint send_to_slack (posts : list Post) : M W unit :=
  match posts with
  | [] => ret tt
  | post :: rest =>
      let message := slack_message post in
      try_except
        (res <- call_post SLACK_WEBHOOK_URL message ;;
         if negb (status_code res =? 200)
         then logging_error (SlackError (status_code res) (body_text res))
         else ret tt)
        (fun e => logging_error (SlackSendFailed e)) ;;
      send_to_slack rest
  end.

(** ** Main logic *)

(** The [for sub in SUBREDDITS] loop; [all_matches] is the list being
    extended. *)
Fixpoint scan_loop (reddit : Reddit) (subs : list string)
    (keywords : list string) (all_matches : list Post) : M W (list Post) :=
  match subs with
  | [] => ret all_matches
  | sub :: rest =>
      logging_info (Scanning sub) ;;
      matches <- fetch_matching_posts reddit sub keywords ;;
      scan_loop reddit rest keywords (all_matches ++ matches)
  end.

(** Lines 162-166: deliver when something was selected. *)
Definition notify (filtered_posts : list Post) : M W unit :=
  match filtered_posts with
  | _ :: _ =>
      send_to_slack filtered_posts ;;
      logging_info (Sent (List.length filtered_posts))
  | [] => logging_info NoPostsPassed
  end.

(** [main], with the two configured lists as arguments. *)
Definition main_on (subs keywords : list string) (max_results : Z) : M W unit :=
  logging_info Starting ;;
  reddit <- create_reddit_instance ;;
  all_matches <- scan_loop reddit subs keywords [] ;;
  match all_matches with
  | [] => logging_info NoKeywordMatches
  | _ :: _ =>
      filtered_posts <- filter_with_ai all_matches max_results ;;
      notify filtered_posts
  end.

Definition main : M W unit := main_on SUBREDDITS KEYWORDS MAX_POSTS_PER_DAY.

End Program.

(* ================================================================== *)
(** * Scenarios *)
(* ================================================================== *)

(** Concrete outside worlds, used to run the program on explicit inputs. *)
Module Scenario.

(** The state of a scripted world: the replies the oracle and the webhook
    still have to give, one per call. *)
Definition Script : Type :=
  list (outcome ChatCompletion) * list (outcome Response).

Definition reply (s : string) : outcome ChatCompletion :=
  Ret {| choices := [Some s] |}.

Definition ok : outcome Response :=
  Ret {| status_code := 200; body_text := "ok" |}.

(** [praw.Reddit(...)] as a scripted world has it: the client cannot be
    constructed without a client id, a secret and a user agent; nothing is
    sent to the service yet, so wrong values are not noticed here. *)
Definition construct (cid secret agent : option string) : outcome Reddit :=
  match cid, secret, agent with
  | Some _, Some _, Some _ =>
      Ret {| client_id := cid; client_secret := secret; user_agent := agent |}
  | _, _, _ => Raise MissingRequiredAttribute
  end.

(** A process environment in which every variable is set. *)
Definition configured : string -> option string := fun name => Some name.

(** The client constructed in that environment. *)
Definition some_reddit : Reddit :=
  {| client_id := Some "REDDIT_CLIENT_ID";
     client_secret := Some "REDDIT_CLIENT_SECRET";
     user_agent := Some "REDDIT_USER_AGENT" |}.

(** A world with every variable set, that serves [feeds] and answers
    oracle and webhook calls from the script; a call beyond the script
    fails. *)
Definition scripted (feeds : string -> feed) : External Script :=
  {| getenv := configured;
     praw_Reddit := fun cid secret agent w => (construct cid secret agent, w);
     subreddit_hot := fun _ name _ w => (feeds name, w);
     chat_completions_create := fun _ w =>
       match fst w with
       | [] => (Raise (RequestError "timeout"), w)
       | r :: rs => (r, (rs, snd w))
       end;
     requests_post := fun _ _ w =>
       match snd w with
       | [] => (Raise (RequestError "timeout"), w)
       | r :: rs => (r, (fst w, rs))
       end |}.

(** The same world with no variable set. *)
Definition unconfigured (feeds : string -> feed) : External Script :=
  {| getenv := fun _ => None;
     praw_Reddit := praw_Reddit (scripted feeds);
     subreddit_hot := subreddit_hot (scripted feeds);
     chat_completions_create := chat_completions_create (scripted feeds);
     requests_post := requests_post (scripted feeds) |}.

Definition submission (t body link : string) : Submission :=
  {| sub_title := t; sub_selftext := body;
     sub_url := ("https://example.org" ++ link)%string; sub_permalink := link |}.

Definition lamp : Submission :=
  submission "Vintage lamp" "Found it at a market" "/r/a/1".
Definition chair : Submission := submission "Old CHAIR" "" "/r/a/2".
Definition soup : Submission :=
  submission "Soup recipe" "Leeks and cream" "/r/a/3".
Definition desk : Submission :=
  submission "My desk" "a reclaimed door" "/r/a/4".

Definition no_feeds : string -> feed := fun _ => Exhausted.

(** Only r/Netherlands has posts: three that match a keyword and one that
    does not. *)
Definition one_source : string -> feed := fun name =>
  if String.eqb name "Netherlands"
  then Yield lamp (Yield soup (Yield chair (Yield desk Exhausted)))
  else Exhausted.

(** r/Belgium yields one matching post, then the listing raises. *)
Definition breaking_source : string -> feed := fun name =>
  if String.eqb name "Belgium"
  then Yield lamp (Broken (RequestError "503"))
  else if String.eqb name "France" then Yield desk Exhausted
  else Exhausted.

(** The client is constructed, and every listing is refused for its
    credentials. *)
Definition rejected : string -> feed := fun _ => Broken AuthenticationError.


Definition post_of (name : string) (s : Submission) : Post :=
  {| title := sub_title s; subreddit := name; url := sub_url s;
     permalink := ("https://reddit.com" ++ sub_permalink s)%string;
     text := Text.lower (sub_title s ++ " " ++ sub_selftext s)%string |}.

Definition three_posts : list Post :=
  [post_of "Netherlands" lamp; post_of "Netherlands" chair;
   post_of "Netherlands" desk].

(** The text of a 7 followed by a superscript 2: U+0037 U+00B2. *)
Definition seven_squared : string := String "7" (String "178" EmptyString).

(** The text of [n] digits 1. *)
Fixpoint ones (n : nat) : string :=
  match n with
  | O => EmptyString
  | S n' => String "1" (ones n')
  end.

(** The webhook answers the first and third call, and fails the second. *)
Definition second_fails : list (outcome Response) :=
  [ok; Raise (RequestError "connection reset"); ok].

End Scenario.

(* ================================================================== *)
(** * Vocabulary of the statements *)
(* ================================================================== *)

(** The submissions a listing yields before it ends or raises. *)
Fixpoint yielded (listing : feed) : list Submission :=
  match listing with
  | Exhausted => []
  | Broken _ => []
  | Yield post rest => post :: yielded rest
  end.

(** The exception a listing ends with, if it does. *)
Fixpoint failure (listing : feed) : option exn :=
  match listing with
  | Exhausted => None
  | Broken e => Some e
  | Yield _ rest => failure rest
  end.

(** The keyword matches among the submissions a listing yields. *)
Definition matches_in (name : string) (keywords : list string) (listing : feed)
    : list Post :=
  map (match_dict name)
      (filter (fun post => any_keyword_in keywords (combined_text post))
              (yielded listing)).

(** What parsing a reply gives, before the handler of [score_post_with_ai]
    turns an exception into 0. *)
Definition parse_reply (r : outcome ChatCompletion) : outcome Z :=
  match r with
  | Raise e => Raise e
  | Ret response =>
      match first_content response with
      | Raise e => Raise e
      | Ret content =>
          match strip_content content with
          | Raise e => Raise e
          | Ret score_text => int_of_digits score_text
          end
      end
  end.

Definition score_of_reply (r : outcome ChatCompletion) : Z :=
  match parse_reply r with
  | Ret score => score
  | Raise _ => 0
  end.

(** The base-10 value of a run of decimal digits, most significant first. *)
Fixpoint base10 (acc : Z) (digits : list ascii) : Z :=
  match digits with
  | [] => acc
  | d :: rest => base10 (10 * acc + Text.digit_value d) rest
  end.

(** A ranking: (score, position in the input) pairs.  [ranked scores cap]
    is what [filter_with_ai] computes, on positions instead of posts. *)
Definition ranked (scores : list Z) (max_results : Z) : list (Z * nat) :=
  slice_to
    (sort_desc
       (filter (fun sp => 0 <? fst sp)
               (combine scores (seq 0 (List.length scores)))))
    max_results.

(** The top of the scale the prompt asks the oracle to rate on. *)
Definition max_scale : Z := 10.

(** Scores never go up along the list. *)
Definition descending (l : list Z) : Prop :=
  StronglySorted (fun a b => b <= a) l.

(** The order a stable descending sort establishes, for a relation
    [before] that the input respects: a higher key first, and among equal
    keys the item that came first. *)
Definition ranks_above {A : Type} (before : A -> A -> Prop) (x y : Z * A)
    : Prop :=
  fst y < fst x \/ (fst x = fst y /\ before (snd x) (snd y)).

(** Earlier items outrank later ones: a higher score, or the same score
    and an earlier position in the input. *)
Definition outranks (a b : Z * nat) : Prop :=
  fst b < fst a \/ (fst a = fst b /\ (snd a < snd b)%nat).

(** The calls to the webhook in a trace, in order. *)
Fixpoint deliveries (t : list event) : list (string * outcome Response) :=
  match t with
  | [] => []
  | Deliver _ message res :: t' => (message, res) :: deliveries t'
  | _ :: t' => deliveries t'
  end.

(** A delivery succeeded when the webhook answered with status 200. *)
Definition delivered (d : string * outcome Response) : bool :=
  match snd d with
  | Ret res => status_code res =? 200
  | Raise _ => false
  end.

(** The listings requested in a trace, in order. *)
Fixpoint fetches (t : list event) : list string :=
  match t with
  | [] => []
  | Fetch name _ :: t' => name :: fetches t'
  | _ :: t' => fetches t'
  end.

(** The prompts sent to the oracle in a trace, in order. *)
Fixpoint asks (t : list event) : list string :=
  match t with
  | [] => []
  | Ask prompt :: t' => prompt :: asks t'
  | _ :: t' => asks t'
  end.

(** The count the run reports in its final log line, if it reports one. *)
Fixpoint reported_sent (t : list event) : option nat :=
  match t with
  | [] => None
  | Log _ (Sent n) :: _ => Some n
  | _ :: t' => reported_sent t'
  end.

Section Runs.

Context {W : Type} (ext : External W).

(** The replies the oracle gives while [posts] are scored from state [w],
    one per post, in order. *)
Fixpoint oracle_replies (posts : list Post) (w : W)
    : list (outcome ChatCompletion) :=
  match posts with
  | [] => []
  | post :: rest =>
      let (r, w1) := chat_completions_create ext (prompt_for post) w in
      r :: oracle_replies rest w1
  end.

(** The score each post receives, in input order. *)
Definition scores_given (posts : list Post) (w : W) : list Z :=
  map score_of_reply (oracle_replies posts w).

(** The listings served while [subs] are scanned from state [w]. *)
Fixpoint listings_served (reddit : Reddit) (subs : list string) (w : W)
    : list feed :=
  match subs with
  | [] => []
  | sub :: rest =>
      let (f, w1) := subreddit_hot ext reddit sub POST_LIMIT w in
      f :: listings_served reddit rest w1
  end.

(** The answers of the webhook while [posts] are delivered from state [w]. *)
Fixpoint webhook_answers (posts : list Post) (w : W)
    : list (outcome Response) :=
  match posts with
  | [] => []
  | post :: rest =>
      let (r, w1) :=
        requests_post ext (SLACK_WEBHOOK_URL ext) (slack_message post) w in
      r :: webhook_answers rest w1
  end.


(** The credentials are unusable: every listing requested with them is
    refused, in whatever state. *)
Definition credentials_unusable : Prop :=
  forall reddit name limit w,
    fst (subreddit_hot ext reddit name limit w) = Broken AuthenticationError.

End Runs.

(** The concatenation of the keyword matches of each source, in source
    order. *)
Fixpoint matches_of_all (subs : list string) (keywords : list string)
    (listings : list feed) : list Post :=
  match subs, listings with
  | sub :: subs', f :: listings' =>
      matches_in sub keywords f ++ matches_of_all subs' keywords listings'
  | _, _ => []
  end.

(** The ERROR records of a trace, in order. *)
Fixpoint error_logs (t : list event) : list log_record :=
  match t with
  | [] => []
  | Log ERROR r :: t' => r :: error_logs t'
  | _ :: t' => error_logs t'
  end.

(** The scored candidates that stay in the ranking: those with a positive
    score, in input order. *)
Definition positive_scored (scores : list Z) (posts : list Post)
    : list (Z * Post) :=
  filter (fun sp => 0 <? fst sp) (combine scores posts).

(** What [filter_with_ai] selects, given the score of each post: the
    positively scored posts, best first, cut at [max_results]. *)
Definition selection_of (scores : list Z) (posts : list Post)
    (max_results : Z) : list Post :=
  map snd (slice_to (sort_desc (positive_scored scores posts)) max_results).

(** The digit characters of a text, in order. *)
Definition digits_of (s : string) : list ascii :=
  filter Text.isdigit (list_ascii_of_string s).

(** The three stages of a run follow one another: [t] is a stretch with
    listing requests only, then one with oracle calls only, then one with
    deliveries only (log records may stand anywhere). *)
Definition staged (t : list event) : Prop :=
  exists t1 t2 t3,
    t = t1 ++ t2 ++ t3
    /\ asks t1 = [] /\ deliveries t1 = []
    /\ fetches t2 = [] /\ deliveries t2 = []
    /\ fetches t3 = [] /\ asks t3 = [].

(** The score of a reply in terms of [digits_of]: what the parse of
    [score_post_with_ai] comes to, case by case. *)
Definition digits_score (r : outcome ChatCompletion) : Z :=
  match r with
  | Ret {| choices := Some s :: _ |} =>
      match digits_of s with
      | [] => 0
      | digits =>
          if (List.length digits <=? Text.int_max_str_digits)%nat
          then if forallb Text.isdecimal digits then base10 0 digits else 0
          else 0
      end
  | _ => 0
  end.

(** The specification's side of the parse, written without any of the
    functions the program is embedded with: which characters are digits and
    what each stands for is a table of its own, and a number is read off a
    list of digits directly. *)
Module Reading.

(** A digit character is a decimal digit or a superscript; both stand for
    a value between 0 and 9. *)
Inductive digit :=
| Decimal (value : Z)
| Superscript (value : Z).

(** The digit characters of U+0000..U+00FF. *)
Definition digit_of (c : ascii) : option digit :=
  match c with
  | "0" => Some (Decimal 0)
  | "1" => Some (Decimal 1)
  | "2" => Some (Decimal 2)
  | "3" => Some (Decimal 3)
  | "4" => Some (Decimal 4)
  | "5" => Some (Decimal 5)
  | "6" => Some (Decimal 6)
  | "7" => Some (Decimal 7)
  | "8" => Some (Decimal 8)
  | "9" => Some (Decimal 9)
  | "178" => Some (Superscript 2)
  | "179" => Some (Superscript 3)
  | "185" => Some (Superscript 1)
  | _ => None
  end%char.

(** The digit characters of a text, in order. *)
Fixpoint digits (s : string) : list digit :=
  match s with
  | EmptyString => []
  | String c rest =>
      match digit_of c with
      | Some d => d :: digits rest
      | None => digits rest
      end
  end.

Definition value_of (d : digit) : Z :=
  match d with
  | Decimal v => v
  | Superscript v => v
  end.

Definition is_decimal (d : digit) : bool :=
  match d with
  | Decimal _ => true
  | Superscript _ => false
  end.

(** The integer a list of digits spells in base 10; 0 for no digit. *)
Definition number (ds : list digit) : Z :=
  fold_left (fun acc d => 10 * acc + value_of d) ds 0.

(** The score as the specification states it: the digit characters of
    the response, interpreted as an integer; 0 if there are none, or if the
    request fails. *)
Definition stated_score (r : outcome ChatCompletion) : Z :=
  match r with
  | Ret {| choices := Some s :: _ |} => number (digits s)
  | _ => 0
  end.

(** The score as amended: the digit characters are interpreted as an
    integer when all of them are decimal digits and there are at most 4300
    of them; the score is 0 otherwise, as it is when there are no digits or
    the request fails. *)
Definition amended_score (r : outcome ChatCompletion) : Z :=
  match r with
  | Ret {| choices := Some s :: _ |} =>
      if forallb is_decimal (digits s)
         && (List.length (digits s) <=? 4300)%nat
      then number (digits s)
      else 0
  | _ => 0
  end.

End Reading.

(* ================================================================== *)
(** * Lemmas on text *)
(* ================================================================== *)

Ltac each_char c := destruct c as [[] [] [] [] [] [] [] []].

Lemma isspace_not_isdigit (c : ascii) :
  Text.isspace c = true -> Text.isdigit c = false.
Proof. each_char c; vm_compute; congruence. Qed.

Lemma isdecimal_isdigit (c : ascii) :
  Text.isdecimal c = true -> Text.isdigit c = true.
Proof. unfold Text.isdigit, Text.isdecimal. intros ->. reflexivity. Qed.

Lemma digit_value_range (c : ascii) :
  Text.isdecimal c = true -> 0 <= Text.digit_value c <= 9.
Proof. each_char c; vm_compute; intuition congruence. Qed.

Lemma lower_char_idempotent (c : ascii) :
  Text.lower_char (Text.lower_char c) = Text.lower_char c.
Proof. each_char c; reflexivity. Qed.

Lemma lower_idempotent (s : string) : Text.lower (Text.lower s) = Text.lower s.
Proof.
  induction s as [|c s IH]; simpl.
  - reflexivity.
  - now rewrite lower_char_idempotent, IH.
Qed.

Lemma chars_join_filter (p : ascii -> bool) (s : string) :
  list_ascii_of_string (Text.join_filter p s) =
  filter p (list_ascii_of_string s).
Proof.
  induction s as [|c s IH]; simpl.
  - reflexivity.
  - destruct (p c); simpl; now rewrite IH.
Qed.

Lemma digits_lstrip (s : string) :
  filter Text.isdigit (list_ascii_of_string (Text.lstrip s)) =
  filter Text.isdigit (list_ascii_of_string s).
Proof.
  induction s as [|c s IH]; simpl.
  - reflexivity.
  - destruct (Text.isspace c) eqn:Hc.
    + now rewrite (isspace_not_isdigit c Hc).
    + reflexivity.
Qed.

Lemma digits_rstrip (s : string) :
  filter Text.isdigit (list_ascii_of_string (Text.rstrip s)) =
  filter Text.isdigit (list_ascii_of_string s).
Proof.
  induction s as [|c s IH]; simpl.
  - reflexivity.
  - destruct (Text.rstrip s) as [|k kept] eqn:Hk.
    + simpl in IH. rewrite <- IH.
      destruct (Text.isspace c) eqn:Hc.
      * now rewrite (isspace_not_isdigit c Hc).
      * simpl. reflexivity.
    + cbn [list_ascii_of_string filter]. now rewrite <- IH.
Qed.

(** Stripping the reply does not change its digits. *)
Lemma digits_strip (s : string) :
  filter Text.isdigit (list_ascii_of_string (Text.strip s)) =
  filter Text.isdigit (list_ascii_of_string s).
Proof. unfold Text.strip. now rewrite digits_rstrip, digits_lstrip. Qed.

Lemma decimal_value_chars (s : string) (acc : Z) :
  Text.decimal_value acc s =
  if forallb Text.isdecimal (list_ascii_of_string s)
  then Some (base10 acc (list_ascii_of_string s)) else None.
Proof.
  revert acc. induction s as [|c s IH]; intros acc; simpl.
  - reflexivity.
  - destruct (Text.isdecimal c); simpl.
    + apply IH.
    + reflexivity.
Qed.

Lemma chars_length (s : string) :
  List.length (list_ascii_of_string s) = String.length s.
Proof. induction s as [|c s IH]; simpl; [reflexivity | now rewrite IH]. Qed.

Lemma int_of_digit_run_chars (s : string) :
  Text.int_of_digit_run s =
  match list_ascii_of_string s with
  | [] => None
  | digits =>
      if (List.length digits <=? Text.int_max_str_digits)%nat
      then if forallb Text.isdecimal digits
           then Some (base10 0 digits) else None
      else None
  end.
Proof.
  destruct s as [|c s].
  - reflexivity.
  - unfold Text.int_of_digit_run.
    rewrite decimal_value_chars, <- chars_length. reflexivity.
Qed.

Lemma base10_nonneg (digits : list ascii) (acc : Z) :
  0 <= acc -> forallb Text.isdecimal digits = true -> 0 <= base10 acc digits.
Proof.
  revert acc.
  induction digits as [|d digits IH]; intros acc Hacc Hall; cbn [base10].
  - exact Hacc.
  - simpl in Hall. apply andb_prop in Hall as [Hd Hall].
    apply IH; [|exact Hall].
    pose proof (digit_value_range d Hd). lia.
Qed.

(** The parse of a reply, in terms of its digit characters. *)
Lemma score_of_reply_digits (r : outcome ChatCompletion) :
  score_of_reply r = digits_score r.
Proof.
  unfold score_of_reply, parse_reply, digits_score, digits_of.
  destruct r as [[[|[s|] others]]|e]; try reflexivity.
  cbn [first_content choices strip_content]. unfold int_of_digits.
  rewrite int_of_digit_run_chars, chars_join_filter, digits_strip.
  destruct (filter Text.isdigit (list_ascii_of_string s)) as [|d digits];
    [reflexivity|].
  cbv zeta.
  destruct (List.length (d :: digits) <=? Text.int_max_str_digits)%nat;
    [|reflexivity].
  destruct (forallb Text.isdecimal (d :: digits)); reflexivity.
Qed.

Lemma digits_score_nonneg (r : outcome ChatCompletion) : 0 <= digits_score r.
Proof.
  unfold digits_score.
  destruct r as [[[|[s|] others]]|e]; cbv beta iota; try lia.
  destruct (digits_of s) as [|d digits]; [lia|].
  destruct (List.length (d :: digits) <=? Text.int_max_str_digits)%nat; [|lia].
  destruct (forallb Text.isdecimal (d :: digits)) eqn:Hall; [|lia].
  apply base10_nonneg; [lia|exact Hall].
Qed.

Lemma score_of_reply_nonneg (r : outcome ChatCompletion) : 0 <= score_of_reply r.
Proof. rewrite score_of_reply_digits. apply digits_score_nonneg. Qed.

(** The table of digit characters agrees with [str.isdigit] and with what
    [int()] reads, character by character. *)
Lemma digit_of_agrees (c : ascii) :
  match Reading.digit_of c with
  | None => Text.isdigit c = false
  | Some (Reading.Decimal v) =>
      Text.isdigit c = true /\ Text.isdecimal c = true
      /\ Text.digit_value c = v
  | Some (Reading.Superscript _) =>
      Text.isdigit c = true /\ Text.isdecimal c = false
  end.
Proof. each_char c; vm_compute; repeat split. Qed.

Lemma reading_digits_agree (s : string) :
  List.length (Reading.digits s) = List.length (digits_of s)
  /\ forallb Reading.is_decimal (Reading.digits s)
     = forallb Text.isdecimal (digits_of s)
  /\ (forallb Text.isdecimal (digits_of s) = true ->
      forall acc,
        fold_left (fun a d => 10 * a + Reading.value_of d) (Reading.digits s) acc
        = base10 acc (digits_of s)).
Proof.
  unfold digits_of.
  induction s as [|c s (IHlen & IHdec & IHnum)].
  - repeat split.
  - pose proof (digit_of_agrees c) as Hc.
    cbn [Reading.digits list_ascii_of_string filter].
    destruct (Reading.digit_of c) as [[v|v]|].
    + destruct Hc as (-> & Hdec & Hval).
      cbn [List.length forallb Reading.is_decimal fold_left base10
           Reading.value_of].
      rewrite Hdec, Hval, IHlen, IHdec.
      split; [reflexivity|]. split; [reflexivity|].
      intros Hall acc. now apply IHnum.
    + destruct Hc as (-> & Hdec).
      cbn [List.length forallb Reading.is_decimal].
      rewrite Hdec, IHlen.
      split; [reflexivity|]. split; [reflexivity|]. discriminate.
    + rewrite Hc. repeat split; assumption.
Qed.

(** The parse of the program and the amended reading agree on every
    reply. *)
Lemma digits_score_amended (r : outcome ChatCompletion) :
  digits_score r = Reading.amended_score r.
Proof.
  unfold digits_score, Reading.amended_score, Reading.number.
  destruct r as [[[|[s|] others]]|e]; try reflexivity.
  destruct (reading_digits_agree s) as (Hlen & Hdec & Hnum).
  rewrite Hdec, Hlen.
  change Text.int_max_str_digits with 4300%nat.
  destruct (digits_of s) as [|d digits] eqn:Hd.
  - destruct (Reading.digits s); [reflexivity | discriminate].
  - destruct (forallb Text.isdecimal (d :: digits)) eqn:Hall.
    + rewrite (Hnum eq_refl 0).
      destruct (List.length (d :: digits) <=? 4300)%nat; reflexivity.
    + destruct (List.length (d :: digits) <=? 4300)%nat; reflexivity.
Qed.

Lemma starts_with_spec (p s : string) :
  Text.starts_with p s = true <-> exists b, s = (p ++ b)%string.
Proof.
  revert s. induction p as [|a p IH]; intros s; simpl.
  - split; [intros _; now exists s | reflexivity].
  - destruct s as [|c s].
    + split; [discriminate | intros [b Hb]; discriminate].
    + rewrite andb_true_iff, Ascii.eqb_eq, IH. split.
      * intros [-> [b ->]]. now exists b.
      * intros [b Hb]. injection Hb as -> ->. split; [reflexivity | now exists b].
Qed.

(** [contains] is substring containment and nothing else. *)
Lemma contains_spec (k t : string) :
  Text.contains k t = true <-> exists a b, t = (a ++ k ++ b)%string.
Proof.
  induction t as [|c t IH].
  - simpl. rewrite orb_false_r, starts_with_spec. split.
    + intros [b Hb]. now exists EmptyString, b.
    + intros [a [b Hab]]. destruct a as [|x a]; [now exists b | discriminate].
  - cbn [Text.contains]. rewrite orb_true_iff, starts_with_spec, IH. split.
    + intros [[b Hb] | [a [b Hab]]].
      * now exists EmptyString, b.
      * exists (String c a), b. simpl. now rewrite Hab.
    + intros [a [b Hab]]. destruct a as [|x a].
      * left. now exists b.
      * right. simpl in Hab. injection Hab as _ Hab. now exists a, b.
Qed.

(* ================================================================== *)
(** * Lemmas on sorting and slicing *)
(* ================================================================== *)

Section Sorting.

Context {A : Type}.

Implicit Types (x y : Z * A) (l : list (Z * A)).

Lemma insert_desc_perm x l : Permutation (insert_desc x l) (x :: l).
Proof.
  induction l as [|y l IH]; simpl.
  - apply Permutation_refl.
  - destruct (fst x <? fst y).
    + eapply perm_trans; [apply perm_skip, IH | apply perm_swap].
    + apply Permutation_refl.
Qed.

Lemma sort_desc_perm l : Permutation (sort_desc l) l.
Proof.
  induction l as [|x l IH]; simpl.
  - apply perm_nil.
  - eapply perm_trans; [apply insert_desc_perm | now apply perm_skip].
Qed.

Lemma sort_desc_length l : List.length (sort_desc l) = List.length l.
Proof. apply Permutation_length, sort_desc_perm. Qed.

Variable before : A -> A -> Prop.

Lemma insert_desc_sorted x l :
  Forall (fun y => before (snd x) (snd y)) l ->
  StronglySorted (ranks_above before) l ->
  StronglySorted (ranks_above before) (insert_desc x l).
Proof.
  induction l as [|y l IH]; intros Hx Hl; simpl.
  - constructor; constructor.
  - inversion Hx as [|? ? Hxy Hxl]; subst.
    inversion Hl as [|? ? Hl' Hy]; subst.
    destruct (fst x <? fst y) eqn:Hlt.
    + apply Z.ltb_lt in Hlt. constructor.
      * now apply IH.
      * eapply Permutation_Forall; [symmetry; apply insert_desc_perm|].
        constructor; [left; exact Hlt | exact Hy].
    + apply Z.ltb_ge in Hlt. constructor; [exact Hl|].
      assert (Hxy' : ranks_above before x y).
      { destruct (Z.eq_dec (fst x) (fst y)) as [E|E].
        - right. split; assumption.
        - left. lia. }
      constructor; [exact Hxy'|].
      rewrite Forall_forall in *. intros z Hz.
      specialize (Hy z Hz). specialize (Hxl z Hz).
      destruct Hxy' as [H1|[H1 _]], Hy as [H2|[H2 _]];
        unfold ranks_above; first [left; lia | right; split; [lia | exact Hxl]].
Qed.

Lemma sort_desc_sorted l :
  StronglySorted (fun x y => before (snd x) (snd y)) l ->
  StronglySorted (ranks_above before) (sort_desc l).
Proof.
  induction l as [|x l IH]; intros Hl; simpl.
  - constructor.
  - inversion Hl as [|? ? Hl' Hx]; subst.
    apply insert_desc_sorted.
    + eapply Permutation_Forall; [symmetry; apply sort_desc_perm | exact Hx].
    + now apply IH.
Qed.

End Sorting.

Lemma in_firstn {A : Type} (n : nat) (l : list A) (x : A) :
  In x (firstn n l) -> In x l.
Proof.
  revert l. induction n as [|n IH]; intros [|y l]; simpl; try tauto.
  intros [E|Hin]; [now left | right; now apply IH].
Qed.

Lemma StronglySorted_firstn {A : Type} (R : A -> A -> Prop) (n : nat)
    (l : list A) :
  StronglySorted R l -> StronglySorted R (firstn n l).
Proof.
  revert l. induction n as [|n IH]; intros l Hl; simpl.
  - constructor.
  - destruct l as [|x l]; [constructor|].
    inversion Hl as [|? ? Hl' Hx]; subst. constructor.
    + now apply IH.
    + rewrite Forall_forall in *. intros y Hy. apply Hx.
      eapply in_firstn. exact Hy.
Qed.

Lemma StronglySorted_filter {A : Type} (R : A -> A -> Prop) (p : A -> bool)
    (l : list A) :
  StronglySorted R l -> StronglySorted R (filter p l).
Proof.
  induction l as [|x l IH]; intros Hl; simpl.
  - constructor.
  - inversion Hl as [|? ? Hl' Hx]; subst.
    destruct (p x); [|now apply IH]. constructor.
    + now apply IH.
    + rewrite Forall_forall in *. intros y Hy. apply Hx.
      apply filter_In in Hy. tauto.
Qed.

Lemma slice_to_firstn {A : Type} (l : list A) (k : Z) :
  exists n, slice_to l k = firstn n l.
Proof. unfold slice_to. destruct (k <? 0); eexists; reflexivity. Qed.

Lemma slice_to_length {A : Type} (l : list A) (k : Z) :
  0 <= k ->
  List.length (slice_to l k) = Nat.min (Z.to_nat k) (List.length l).
Proof.
  intros Hk. unfold slice_to.
  destruct (k <? 0) eqn:E; [apply Z.ltb_lt in E; lia|].
  apply length_firstn.
Qed.

Lemma slice_to_incl {A : Type} (l : list A) (k : Z) (x : A) :
  In x (slice_to l k) -> In x l.
Proof.
  destruct (slice_to_firstn l k) as [n ->]. apply in_firstn.
Qed.

(** Sorting looks at the keys only: it commutes with any change of the
    payloads. *)
Lemma insert_desc_map {A B : Type} (f : A -> B) (x : Z * A) (l : list (Z * A)) :
  insert_desc (fst x, f (snd x)) (map (fun y => (fst y, f (snd y))) l) =
  map (fun y => (fst y, f (snd y))) (insert_desc x l).
Proof.
  induction l as [|y l IH]; simpl.
  - reflexivity.
  - destruct (fst x <? fst y); simpl; [now rewrite IH | reflexivity].
Qed.

Lemma sort_desc_map {A B : Type} (f : A -> B) (l : list (Z * A)) :
  sort_desc (map (fun y => (fst y, f (snd y))) l) =
  map (fun y => (fst y, f (snd y))) (sort_desc l).
Proof.
  induction l as [|x l IH]; simpl.
  - reflexivity.
  - now rewrite IH, insert_desc_map.
Qed.

Lemma slice_to_map {A B : Type} (f : A -> B) (l : list A) (k : Z) :
  slice_to (map f l) k = map f (slice_to l k).
Proof.
  unfold slice_to. rewrite length_map.
  destruct (k <? 0); apply firstn_map.
Qed.

(* ================================================================== *)
(** * Lemmas on rankings *)
(* ================================================================== *)

Lemma in_indexed (scores : list Z) (start : nat) (s : Z) (i : nat) :
  In (s, i) (combine scores (seq start (List.length scores))) ->
  (start <= i)%nat /\ nth_error scores (i - start) = Some s.
Proof.
  revert start. induction scores as [|x scores IH]; intros start; simpl.
  - tauto.
  - intros [E|Hin].
    + injection E as -> ->. rewrite Nat.sub_diag. split; [lia | reflexivity].
    + apply IH in Hin as [Hle Hnth]. split; [lia|].
      replace (i - start)%nat with (S (i - S start)) by lia. exact Hnth.
Qed.

Lemma indexed_increasing (scores : list Z) (start : nat) :
  StronglySorted (fun x y : Z * nat => (snd x < snd y)%nat)
    (combine scores (seq start (List.length scores))).
Proof.
  revert start. induction scores as [|x scores IH]; intros start; simpl.
  - constructor.
  - constructor; [apply IH|].
    rewrite Forall_forall. intros [s i] Hin.
    apply in_indexed in Hin as [Hle _]. simpl. lia.
Qed.

Lemma in_ranked (scores : list Z) (cap : Z) (s : Z) (i : nat) :
  In (s, i) (ranked scores cap) -> nth_error scores i = Some s /\ 0 < s.
Proof.
  unfold ranked. intros Hin.
  apply slice_to_incl in Hin.
  apply (Permutation_in _ (sort_desc_perm _)) in Hin.
  apply filter_In in Hin as [Hin Hpos]. simpl in Hpos.
  apply in_indexed in Hin as [_ Hnth]. rewrite Nat.sub_0_r in Hnth.
  split; [exact Hnth | now apply Z.ltb_lt].
Qed.

(** The ranking is ordered: higher scores first, equal scores in input
    order. *)
Lemma ranked_sorted (scores : list Z) (cap : Z) :
  StronglySorted outranks (ranked scores cap).
Proof.
  unfold ranked.
  destruct (slice_to_firstn
              (sort_desc (filter (fun sp : Z * nat => 0 <? fst sp)
                 (combine scores (seq 0 (List.length scores))))) cap)
    as [n ->].
  apply StronglySorted_firstn.
  apply (sort_desc_sorted lt).
  apply StronglySorted_filter, indexed_increasing.
Qed.

Lemma sorted_distinct_positions (l : list (Z * nat)) :
  StronglySorted outranks l ->
  (forall a b, In a l -> In b l -> snd a = snd b -> fst a = fst b) ->
  NoDup (map snd l).
Proof.
  induction l as [|x l IH]; intros Hs Hdet; simpl.
  - constructor.
  - inversion Hs as [|? ? Hl Hx]; subst. constructor.
    + intros Hin. apply in_map_iff in Hin as [y [Hy Hin]].
      rewrite Forall_forall in Hx. specialize (Hx y Hin).
      assert (E : fst x = fst y)
        by (apply Hdet; [now left | now right | now symmetry]).
      destruct Hx as [Hlt|[_ Hlt]]; lia.
    + apply IH; [exact Hl|].
      intros a b Ha Hb. apply Hdet; now right.
Qed.

(** No input position is selected twice. *)
Lemma ranked_NoDup (scores : list Z) (cap : Z) :
  NoDup (map snd (ranked scores cap)).
Proof.
  apply sorted_distinct_positions; [apply ranked_sorted|].
  intros [s i] [s' j] Ha Hb. simpl. intros <-.
  apply in_ranked in Ha as [Ha _]. apply in_ranked in Hb as [Hb _].
  congruence.
Qed.

Lemma filter_indexed_length (scores : list Z) (start : nat) :
  List.length (filter (fun sp : Z * nat => 0 <? fst sp)
                 (combine scores (seq start (List.length scores)))) =
  List.length (filter (fun s => 0 <? s) scores).
Proof.
  revert start. induction scores as [|x scores IH]; intros start; simpl.
  - reflexivity.
  - destruct (0 <? x); simpl; now rewrite IH.
Qed.

(** The ranking holds every positively scored position, up to the cap. *)
Lemma ranked_length (scores : list Z) (cap : Z) :
  0 <= cap ->
  List.length (ranked scores cap) =
  Nat.min (Z.to_nat cap) (List.length (filter (fun s => 0 <? s) scores)).
Proof.
  intros Hcap. unfold ranked.
  now rewrite slice_to_length, sort_desc_length, filter_indexed_length.
Qed.

(** The scores along a ranking never go up. *)
Lemma ranked_descending (scores : list Z) (cap : Z) :
  descending (map fst (ranked scores cap)).
Proof.
  unfold descending.
  pose proof (ranked_sorted scores cap) as Hs.
  induction Hs as [|x l Hl IH Hx]; simpl.
  - constructor.
  - constructor; [exact IH|].
    rewrite Forall_forall in *. intros s Hin.
    apply in_map_iff in Hin as [y [<- Hy]].
    destruct (Hx y Hy) as [H|[H _]]; lia.
Qed.

(** Selecting posts and selecting positions are the same computation. *)
Lemma combine_posts_indexed (scores : list Z) (posts : list Post) (start : nat) :
  List.length scores = List.length posts ->
  map (fun y : Z * Post => (fst y, Some (snd y))) (combine scores posts) =
  map (fun y : Z * nat => (fst y, nth_error posts (snd y - start)))
      (combine scores (seq start (List.length scores))).
Proof.
  revert posts start.
  induction scores as [|s scores IH]; intros [|p posts] start Hlen;
    simpl in *; try discriminate; try reflexivity.
  rewrite Nat.sub_diag. simpl. f_equal.
  rewrite (IH posts (S start)) by lia.
  apply map_ext_in. intros [s' i] Hin.
  apply in_indexed in Hin as [Hle _]. simpl.
  replace (i - start)%nat with (S (i - S start)) by lia. reflexivity.
Qed.

Lemma filter_key_map {A B : Type} (f : A -> B) (l : list (Z * A)) :
  filter (fun sp : Z * B => 0 <? fst sp) (map (fun y => (fst y, f (snd y))) l) =
  map (fun y => (fst y, f (snd y))) (filter (fun sp : Z * A => 0 <? fst sp) l).
Proof.
  induction l as [|x l IH]; simpl.
  - reflexivity.
  - destruct (0 <? fst x); simpl; now rewrite IH.
Qed.

Lemma selection_by_positions (scores : list Z) (posts : list Post) (cap : Z) :
  List.length scores = List.length posts ->
  map Some
    (map snd
       (slice_to
          (sort_desc (filter (fun sp : Z * Post => 0 <? fst sp)
                        (combine scores posts)))
          cap)) =
  map (fun si => nth_error posts (snd si)) (ranked scores cap).
Proof.
  intros Hlen.
  rewrite map_map.
  rewrite <- (map_map (fun y : Z * Post => (fst y, Some (snd y))) snd).
  rewrite <- slice_to_map, <- sort_desc_map, <- filter_key_map.
  rewrite (combine_posts_indexed scores posts 0 Hlen).
  rewrite (filter_key_map (fun i => nth_error posts (i - 0))).
  rewrite (sort_desc_map (fun i => nth_error posts (i - 0))).
  rewrite slice_to_map, map_map.
  unfold ranked. apply map_ext. intros [s i]. simpl.
  now rewrite Nat.sub_0_r.
Qed.

(* ================================================================== *)
(** * Lemmas on traces *)
(* ================================================================== *)

Lemma deliveries_app (t1 t2 : list event) :
  deliveries (t1 ++ t2) = deliveries t1 ++ deliveries t2.
Proof.
  induction t1 as [|[| | | |] t1 IH]; simpl; try assumption.
  - reflexivity.
  - now rewrite IH.
Qed.

Lemma fetches_app (t1 t2 : list event) :
  fetches (t1 ++ t2) = fetches t1 ++ fetches t2.
Proof.
  induction t1 as [|[| | | |] t1 IH]; simpl; try assumption.
  - reflexivity.
  - now rewrite IH.
Qed.

Lemma asks_app (t1 t2 : list event) : asks (t1 ++ t2) = asks t1 ++ asks t2.
Proof.
  induction t1 as [|[| | | |] t1 IH]; simpl; try assumption.
  - reflexivity.
  - now rewrite IH.
Qed.

Lemma reported_sent_app (t1 t2 : list event) :
  reported_sent t1 = None -> reported_sent (t1 ++ t2) = reported_sent t2.
Proof.
  induction t1 as [|[| | | |lvl []] t1 IH]; simpl; try assumption;
    try reflexivity.
  discriminate.
Qed.

(* ================================================================== *)
(** * Lemmas on the runs of each function *)
(* ================================================================== *)

Section RunLemmas.

Context {W : Type} (ext : External W).

Ltac run :=
  unfold bind, try_except, lift, ret, raise, logging_error, logging_info, emit,
    call_chat, call_hot, call_post, call_Reddit.

(** ** [score_post_with_ai] *)

Lemma score_post_with_ai_run (post : Post) (w : W) :
  score_post_with_ai ext post w =
  (Ret (score_of_reply (fst (chat_completions_create ext (prompt_for post) w))),
   snd (chat_completions_create ext (prompt_for post) w),
   Ask (prompt_for post) ::
   match parse_reply (fst (chat_completions_create ext (prompt_for post) w)) with
   | Ret _ => []
   | Raise e => [Log ERROR (OpenAIError e)]
   end).
Proof.
  unfold score_post_with_ai, score_of_reply, parse_reply. run.
  destruct (chat_completions_create ext (prompt_for post) w) as [[response|e] w1];
    simpl; [|reflexivity].
  destruct (first_content response) as [content|e]; simpl; [|reflexivity].
  destruct (strip_content content) as [score_text|e]; simpl; [|reflexivity].
  destruct (int_of_digits score_text) as [score|e]; reflexivity.
Qed.

Lemma oracle_replies_length (posts : list Post) (w : W) :
  List.length (oracle_replies ext posts w) = List.length posts.
Proof.
  revert w. induction posts as [|post posts IH]; intros w; simpl.
  - reflexivity.
  - destruct (chat_completions_create ext (prompt_for post) w) as [r w1].
    simpl. now rewrite IH.
Qed.

Lemma scores_given_length (posts : list Post) (w : W) :
  List.length (scores_given ext posts w) = List.length posts.
Proof. unfold scores_given. now rewrite length_map, oracle_replies_length. Qed.

(** ** [filter_with_ai] *)

Lemma scoring_loop_run (posts : list Post) (scored : list (Z * Post)) (w : W) :
  exists w1 t,
    scoring_loop ext posts scored w =
    (Ret (scored ++ filter (fun sp => 0 <? fst sp)
                      (combine (scores_given ext posts w) posts)), w1, t)
    /\ asks t = map prompt_for posts
    /\ deliveries t = [] /\ fetches t = [] /\ reported_sent t = None.
Proof.
  revert scored w.
  induction posts as [|post posts IH]; intros scored w.
  - exists w, []. simpl. unfold ret. now rewrite app_nil_r.
  - cbn [scoring_loop]. unfold bind at 1.
    rewrite score_post_with_ai_run.
    unfold scores_given. cbn [oracle_replies].
    destruct (chat_completions_create ext (prompt_for post) w) as [r w1].
    cbn [fst snd map combine filter].
    destruct (IH (if 0 <? score_of_reply r
                  then scored ++ [(score_of_reply r, post)] else scored) w1)
      as (w2 & t & Hrun & Hasks & Hdel & Hfetch & Hrep).
    rewrite Hrun. eexists w2, _. split; [|split; [|split; [|split]]].
    + f_equal. f_equal. f_equal. unfold scores_given.
      destruct (0 <? score_of_reply r); [|reflexivity].
      now rewrite <- app_assoc.
    + cbn [asks app]. rewrite asks_app, Hasks.
      destruct (parse_reply r); reflexivity.
    + cbn [deliveries app]. rewrite deliveries_app, Hdel.
      destruct (parse_reply r); reflexivity.
    + cbn [fetches app]. rewrite fetches_app, Hfetch.
      destruct (parse_reply r); reflexivity.
    + cbn [reported_sent app]. rewrite reported_sent_app, Hrep;
        destruct (parse_reply r); reflexivity.
Qed.

Lemma filter_with_ai_run (posts : list Post) (cap : Z) (w : W) :
  exists out w1 t,
    filter_with_ai ext posts cap w = (Ret out, w1, t)
    /\ map Some out =
       map (fun si => nth_error posts (snd si))
           (ranked (scores_given ext posts w) cap)
    /\ asks t = map prompt_for posts
    /\ deliveries t = [] /\ fetches t = [] /\ reported_sent t = None.
Proof.
  unfold filter_with_ai. unfold bind.
  destruct (scoring_loop_run posts [] w)
    as (w1 & t & Hrun & Hasks & Hdel & Hf & Hr).
  rewrite Hrun. unfold ret. cbn [app].
  eexists _, w1, _. split; [reflexivity|]. rewrite app_nil_r.
  split; [|now repeat split].
  apply selection_by_positions, scores_given_length.
Qed.

(** ** [fetch_matching_posts] *)

Lemma hot_loop_run (name : string) (keywords : list string) (listing : feed)
    (matches : list Post) :
  hot_loop name keywords listing matches =
  (matches ++ matches_in name keywords listing, failure listing).
Proof.
  unfold matches_in. revert matches.
  induction listing as [|post rest IH|e]; intros matches; simpl.
  - now rewrite app_nil_r.
  - rewrite IH.
    destruct (any_keyword_in keywords (combined_text post)); simpl.
    + now rewrite <- app_assoc.
    + reflexivity.
  - now rewrite app_nil_r.
Qed.

Lemma fetch_matching_posts_run (reddit : Reddit) (name : string)
    (keywords : list string) (w : W) :
  fetch_matching_posts ext reddit name keywords w =
  (Ret (matches_in name keywords
          (fst (subreddit_hot ext reddit name POST_LIMIT w))),
   snd (subreddit_hot ext reddit name POST_LIMIT w),
   Fetch name POST_LIMIT ::
   match failure (fst (subreddit_hot ext reddit name POST_LIMIT w)) with
   | None => []
   | Some e => [Log ERROR (FetchError name e)]
   end).
Proof.
  unfold fetch_matching_posts. run.
  destruct (subreddit_hot ext reddit name POST_LIMIT w) as [listing w1].
  rewrite hot_loop_run. cbn [fst snd app].
  destruct (failure listing); reflexivity.
Qed.

(** ** The scan of [main] *)

Lemma scan_loop_run (reddit : Reddit) (subs keywords : list string)
    (all_matches : list Post) (w : W) :
  exists w1 t,
    scan_loop ext reddit subs keywords all_matches w =
    (Ret (all_matches ++
          matches_of_all subs keywords (listings_served ext reddit subs w)),
     w1, t)
    /\ fetches t = subs /\ asks t = [] /\ deliveries t = []
    /\ reported_sent t = None.
Proof.
  revert all_matches w.
  induction subs as [|sub subs IH]; intros all_matches w.
  - exists w, []. simpl. unfold ret. now rewrite app_nil_r.
  - cbn [scan_loop listings_served]. unfold bind, logging_info, emit.
    rewrite fetch_matching_posts_run.
    destruct (subreddit_hot ext reddit sub POST_LIMIT w) as [listing w1].
    cbn [fst snd matches_of_all].
    destruct (IH (all_matches ++ matches_in sub keywords listing) w1)
      as (w2 & t & Hrun & Hf & Ha & Hd & Hr).
    rewrite Hrun. eexists w2, _. split; [|split; [|split; [|split]]].
    + now rewrite <- app_assoc.
    + cbn [app fetches]. rewrite fetches_app, Hf.
      destruct (failure listing); reflexivity.
    + cbn [app asks]. rewrite asks_app, Ha.
      destruct (failure listing); reflexivity.
    + cbn [app deliveries]. rewrite deliveries_app, Hd.
      destruct (failure listing); reflexivity.
    + cbn [app reported_sent]. rewrite reported_sent_app, Hr;
        destruct (failure listing); reflexivity.
Qed.

(** ** [send_to_slack] *)

Lemma send_to_slack_run (posts : list Post) (w : W) :
  exists w1 t,
    send_to_slack ext posts w = (Ret tt, w1, t)
    /\ deliveries t =
       combine (map slack_message posts) (webhook_answers ext posts w)
    /\ asks t = [] /\ fetches t = [] /\ reported_sent t = None.
Proof.
  revert w. induction posts as [|post posts IH]; intros w.
  - exists w, []. now split.
  - cbn [send_to_slack webhook_answers map]. run.
    destruct (requests_post ext (SLACK_WEBHOOK_URL ext) (slack_message post) w)
      as [[res|e] w1].
    + destruct (IH w1) as (w2 & t & Hrun & Hd & Ha & Hf & Hr).
      destruct (negb (status_code res =? 200)); cbn [app];
        rewrite Hrun; eexists w2, _; (split; [reflexivity|]);
        cbn [app deliveries asks fetches reported_sent combine];
        now rewrite Hd, Ha, Hf, Hr.
    + destruct (IH w1) as (w2 & t & Hrun & Hd & Ha & Hf & Hr).
      cbn [app]. rewrite Hrun. eexists w2, _. split; [reflexivity|].
      cbn [app deliveries asks fetches reported_sent combine].
      now rewrite Hd, Ha, Hf, Hr.
Qed.

Lemma webhook_answers_length (posts : list Post) (w : W) :
  List.length (webhook_answers ext posts w) = List.length posts.
Proof.
  revert w. induction posts as [|post posts IH]; intros w; simpl.
  - reflexivity.
  - destruct (requests_post ext (SLACK_WEBHOOK_URL ext) (slack_message post) w).
    simpl. now rewrite IH.
Qed.

Lemma split_combine_same_length {A B : Type} (l1 : list A) (l2 : list B) :
  List.length l1 = List.length l2 ->
  map fst (combine l1 l2) = l1 /\ map snd (combine l1 l2) = l2.
Proof.
  revert l2. induction l1 as [|x l1 IH]; intros [|y l2] Hlen;
    simpl in *; try discriminate; [now split|].
  destruct (IH l2) as [H1 H2]; [lia|]. now rewrite H1, H2.
Qed.

(** One call per item, in order, each with the message of its item, and
    whatever the answers. *)
Lemma send_to_slack_calls (posts : list Post) (w : W) :
  result (send_to_slack ext posts w) = Ret tt
  /\ map fst (deliveries (trace (send_to_slack ext posts w)))
     = map slack_message posts
  /\ map snd (deliveries (trace (send_to_slack ext posts w)))
     = webhook_answers ext posts w.
Proof.
  destruct (send_to_slack_run posts w) as (w1 & t & Hrun & Hd & _).
  rewrite Hrun. unfold result, trace. simpl. rewrite Hd.
  split; [reflexivity|].
  apply split_combine_same_length.
  now rewrite length_map, webhook_answers_length.
Qed.

(** ** The last stage of [main] *)

Lemma notify_run (filtered_posts : list Post) (w : W) :
  exists w1 t,
    notify ext filtered_posts w = (Ret tt, w1, t)
    /\ deliveries t =
       combine (map slack_message filtered_posts)
               (webhook_answers ext filtered_posts w)
    /\ asks t = [] /\ fetches t = []
    /\ reported_sent t =
       match filtered_posts with
       | [] => None
       | _ :: _ => Some (List.length filtered_posts)
       end.
Proof.
  destruct filtered_posts as [|post rest].
  - exists w, [Log INFO NoPostsPassed]. now repeat split.
  - unfold notify. unfold bind, logging_info, emit.
    destruct (send_to_slack_run (post :: rest) w)
      as (w1 & t & Hrun & Hd & Ha & Hf & Hr).
    rewrite Hrun. eexists w1, _. split; [reflexivity|].
    rewrite deliveries_app, asks_app, fetches_app, reported_sent_app, Hd, Ha, Hf
      by exact Hr.
    simpl. now rewrite app_nil_r.
Qed.

End RunLemmas.

(* ================================================================== *)
(** * Lemmas on whole runs *)
(* ================================================================== *)

Lemma map_Some_inj {A : Type} (l1 l2 : list A) :
  map Some l1 = map Some l2 -> l1 = l2.
Proof.
  revert l2. induction l1 as [|x l1 IH]; intros [|y l2] H; simpl in H;
    try discriminate; [reflexivity|].
  injection H as -> H. f_equal. now apply IH.
Qed.

Lemma sorted_nth_error {A : Type} (R : A -> A -> Prop) (l : list A)
    (a b : nat) (x y : A) :
  StronglySorted R l -> (a < b)%nat ->
  nth_error l a = Some x -> nth_error l b = Some y -> R x y.
Proof.
  intros Hs. revert a b.
  induction Hs as [|z l Hl IH Hz]; intros a b Hab Ha Hb.
  - destruct a; discriminate.
  - destruct b as [|b]; [lia|].
    destruct a as [|a]; simpl in Ha, Hb.
    + injection Ha as ->. rewrite Forall_forall in Hz.
      apply Hz. eapply nth_error_In. exact Hb.
    + apply (IH a b); [lia | assumption | assumption].
Qed.


Lemma matches_of_all_incl (subs keywords : list string) (listings : list feed)
    (j : nat) (name : string) (listing : feed) :
  nth_error subs j = Some name ->
  nth_error listings j = Some listing ->
  incl (matches_in name keywords listing)
       (matches_of_all subs keywords listings).
Proof.
  revert listings j.
  induction subs as [|sub subs IH]; intros [|f listings] [|j] Hs Hl;
    simpl in *; try discriminate.
  - injection Hs as ->. injection Hl as ->. apply incl_appl, incl_refl.
  - apply incl_appr. now apply (IH listings j).
Qed.

Section WholeRuns.

Context {W : Type} (ext : External W).



(** A run of [main]: it raises exactly when the client cannot be
    constructed, and then before anything is fetched; otherwise it scans
    every source, scores the matches, and delivers the selection. *)
Lemma main_on_run (subs keywords : list string) (cap : Z) (w : W) :
  match praw_Reddit ext (REDDIT_CLIENT_ID ext) (REDDIT_CLIENT_SECRET ext)
          (REDDIT_USER_AGENT ext) w with
  | (Raise e, w1) =>
      main_on ext subs keywords cap w = (Raise e, w1, [Log INFO Starting; Construct])
  | (Ret reddit, w1) =>
      exists w2 t,
        main_on ext subs keywords cap w = (Ret tt, w2, t)
        /\ fetches t = subs
        /\ exists selection wa wb,
             (selection = [] \/
              result (filter_with_ai ext
                        (matches_of_all subs keywords
                           (listings_served ext reddit subs w1)) cap wa)
              = Ret selection)
             /\ deliveries t =
                combine (map slack_message selection)
                        (webhook_answers ext selection wb)
             /\ reported_sent t =
                match selection with
                | [] => None
                | _ :: _ => Some (List.length selection)
                end
  end.
Proof.
  destruct (praw_Reddit ext (REDDIT_CLIENT_ID ext) (REDDIT_CLIENT_SECRET ext)
              (REDDIT_USER_AGENT ext) w) as [[reddit|e] w1] eqn:Hctor;
    unfold main_on, create_reddit_instance, call_Reddit;
    unfold bind at 1; unfold logging_info at 1; unfold emit;
    unfold bind at 1; rewrite Hctor; [|reflexivity].
  unfold bind at 1.
  destruct (scan_loop_run ext reddit subs keywords [] w1)
    as (w2 & t & Hscan & Hf & Ha & Hd & Hr).
  rewrite Hscan. cbn [app].
  destruct (matches_of_all subs keywords (listings_served ext reddit subs w1))
    as [|m ms] eqn:Hm.
  - unfold logging_info, emit. eexists w2, _. split; [reflexivity|].
    cbn [app fetches]. rewrite fetches_app, Hf. split; [now rewrite app_nil_r|].
    exists [], w2, w2. split; [now left|].
    cbn [deliveries reported_sent]. rewrite deliveries_app, Hd.
    rewrite reported_sent_app by exact Hr. now split.
  - unfold bind.
    destruct (filter_with_ai_run ext (m :: ms) cap w2)
      as (out & w3 & t3 & Hrun & _ & _ & Hd3 & Hf3 & Hr3).
    rewrite Hrun.
    destruct (notify_run ext out w3) as (w4 & t4 & Hn & Hd4 & _ & Hf4 & Hr4).
    rewrite Hn. eexists w4, _. split; [reflexivity|].
    cbn [app fetches deliveries reported_sent].
    rewrite !fetches_app, !deliveries_app, Hf, Hf3, Hf4, Hd, Hd3, Hd4.
    split; [now rewrite app_nil_r|].
    exists out, w2, w3. split; [right; now rewrite Hrun|].
    split; [reflexivity|].
    rewrite reported_sent_app by exact Hr.
    rewrite reported_sent_app by exact Hr3. exact Hr4.
Qed.

End WholeRuns.

(* ================================================================== *)
(** * The program on explicit inputs *)
(* ================================================================== *)

Import Scenario.

Example lower_folds_case : Text.lower "Old CHAIR" = "old chair".
Proof. reflexivity. Qed.

(** Containment is per character: "table" occurs inside "vegetable". *)
Example table_in_vegetable : Text.contains "table" "vegetable stew" = true.
Proof. reflexivity. Qed.

Example strip_drops_outer_blanks : Text.strip "  7 of 10  " = "7 of 10".
Proof. reflexivity. Qed.

Example score_of_plain_reply : score_of_reply (reply " 7 ") = 7.
Proof. reflexivity. Qed.

(** Every digit of the reply is read: "7/10" is scored 710. *)
Example score_of_fraction_reply : score_of_reply (reply "7/10") = 710.
Proof. reflexivity. Qed.

Example score_of_wordy_reply : score_of_reply (reply "not relevant") = 0.
Proof. reflexivity. Qed.

(** A superscript is a digit for [str.isdigit] and not for [int()]. *)
Example score_of_superscript_reply :
  score_of_reply (reply (String (Text.chr 178) EmptyString)) = 0.
Proof. reflexivity. Qed.

(** A reply of 4300 digits is read; one digit more and [int()] raises. *)
Example score_of_longest_reply :
  (0 <? score_of_reply (reply (ones 4300))) = true.
Proof. vm_compute. reflexivity. Qed.

Example score_of_too_long_reply : score_of_reply (reply (ones 4301)) = 0.
Proof. vm_compute. reflexivity. Qed.

Example score_without_choices : score_of_reply (Ret {| choices := [] |}) = 0.
Proof. reflexivity. Qed.

Example sort_keeps_order_of_ties :
  sort_desc [(3, "a"); (9, "b"); (3, "c"); (9, "d"); (5, "e")]
  = [(9, "b"); (9, "d"); (5, "e"); (3, "a"); (3, "c")].
Proof. reflexivity. Qed.

Example slice_with_negative_bound : slice_to [1; 2; 3] (-1) = [1; 2].
Proof. reflexivity. Qed.

(** With no variable set the client cannot be constructed: the run stops
    there, before any listing is requested. *)
Example unconfigured_run_stops :
  main (unconfigured one_source) ([], [])
  = (Raise MissingRequiredAttribute, ([], []), [Log INFO Starting; Construct]).
Proof. reflexivity. Qed.

(** A full run: three matches in r/Netherlands, scored 7, 9 and 8, all
    delivered, best first. *)
Example full_run_delivers_best_first :
  map fst
    (deliveries
       (trace (main (scripted one_source)
                 ([reply "7"; reply "9"; reply "8"], [ok; ok; ok]))))
  = map slack_message
      [post_of "Netherlands" chair; post_of "Netherlands" desk;
       post_of "Netherlands" lamp].
Proof. reflexivity. Qed.

(* ================================================================== *)
(** * The specification's claims *)
(* ================================================================== *)

(** ** Scoring *)

(** C1, as stated, fails: the score is not kept within [0, max_scale].
    The reply "100" is scored 100. *)
Lemma score_above_max_scale :
  result (score_post_with_ai (scripted no_feeds)
            (post_of "Netherlands" lamp) ([reply "100"], []))
  = Ret 100
  /\ ~ (0 <= 100 <= max_scale).
Proof. split; [reflexivity | unfold max_scale; lia]. Qed.

(** C1, amended: scoring is total.  For every candidate and whatever the
    oracle does, [score_post_with_ai] returns an integer that is at least 0
    and raises nothing; the score is 0 when the call fails, when the
    response has no choice or no content, and when the content has no
    digit.  No upper bound is enforced. *)
Theorem score_total_nonnegative :
  forall (W : Type) (ext : External W) (post : Post) (w : W),
  exists n,
    result (score_post_with_ai ext post w) = Ret n
    /\ 0 <= n
    /\ match fst (chat_completions_create ext (prompt_for post) w) with
       | Raise _ => n = 0
       | Ret {| choices := [] |} => n = 0
       | Ret {| choices := None :: _ |} => n = 0
       | Ret {| choices := Some s :: _ |} =>
           filter Text.isdigit (list_ascii_of_string s) = [] -> n = 0
       end.
Proof.
  intros W ext post w.
  exists (score_of_reply (fst (chat_completions_create ext (prompt_for post) w))).
  rewrite score_post_with_ai_run. split; [reflexivity|].
  split; [apply score_of_reply_nonneg|].
  rewrite score_of_reply_digits.
  destruct (fst (chat_completions_create ext (prompt_for post) w))
    as [[[|[s|] others]]|e]; try reflexivity.
  unfold digits_score, digits_of. intros ->. reflexivity.
Qed.

(** C9, as stated, fails: a response can hold digit characters, come from
    a request that succeeded, and still be scored 0.  The text 7 followed by
    a superscript 2 has two digit characters, which spell 72, and its score
    is 0: [int()] does not read a superscript. *)
Lemma superscript_digit_scores_zero :
  chat_completions_create (scripted no_feeds)
    (prompt_for (post_of "Netherlands" lamp)) ([reply seven_squared], [])
  = (reply seven_squared, ([], []))
  /\ digits_of seven_squared <> []
  /\ Reading.stated_score (reply seven_squared) = 72
  /\ result (score_post_with_ai (scripted no_feeds)
               (post_of "Netherlands" lamp) ([reply seven_squared], []))
     = Ret 0.
Proof.
  split; [reflexivity|]. split; [discriminate|]. split; reflexivity.
Qed.

(** C9, amended: for every oracle response, the score is the integer
    spelled by the digit characters of the response when all of them are
    decimal digits and there are at most 4300 of them; it is 0 when there
    are no digits, when a digit character is not a decimal digit, when there
    are more than 4300, and when the request fails for any reason
    ([Reading.amended_score] is that reading of a reply). *)
Theorem score_reads_reply_digits :
  forall (W : Type) (ext : External W) (post : Post) (w : W),
    result (score_post_with_ai ext post w)
    = Ret (Reading.amended_score
             (fst (chat_completions_create ext (prompt_for post) w))).
Proof.
  intros W ext post w. rewrite score_post_with_ai_run.
  unfold result. cbn [fst].
  now rewrite score_of_reply_digits, digits_score_amended.
Qed.

(** ** Selection *)

(** C2: for every list of candidates and every cap (a count, so at least
    0), [filter_with_ai] returns at most [cap] candidates, in descending
    order of score, and no candidate scored 0 is among them, whether the cap
    is reached or not: the output holds exactly the positively scored
    candidates, up to the cap.  [sel] lists, for each output item, its score
    and its position in the input. *)
Theorem selection_capped_descending_positive :
  forall (W : Type) (ext : External W) (posts : list Post) (cap : Z) (w : W),
    0 <= cap ->
    exists (out : list Post) (sel : list (Z * nat)),
      result (filter_with_ai ext posts cap w) = Ret out
      /\ map Some out = map (fun si => nth_error posts (snd si)) sel
      /\ Forall (fun si =>
                   nth_error (scores_given ext posts w) (snd si) = Some (fst si))
                sel
      /\ NoDup (map snd sel)
      /\ Z.of_nat (List.length out) <= cap
      /\ descending (map fst sel)
      /\ (forall i, nth_error (scores_given ext posts w) i = Some 0 ->
                    ~ In i (map snd sel))
      /\ List.length out =
         Nat.min (Z.to_nat cap)
                 (List.length (filter (fun s => 0 <? s) (scores_given ext posts w))).
Proof.
  intros W ext posts cap w Hcap.
  destruct (filter_with_ai_run ext posts cap w) as (out & w1 & t & Hrun & Hout & _).
  exists out, (ranked (scores_given ext posts w) cap).
  assert (Hlen : List.length out =
                 List.length (ranked (scores_given ext posts w) cap)).
  { rewrite <- (length_map Some out), Hout. apply length_map. }
  split; [now rewrite Hrun|]. split; [exact Hout|].
  split.
  { rewrite Forall_forall. intros [s i] Hin. now apply in_ranked in Hin. }
  split; [apply ranked_NoDup|].
  split.
  { rewrite Hlen, ranked_length by exact Hcap. lia. }
  split; [apply ranked_descending|].
  split.
  { intros i Hi Hin. apply in_map_iff in Hin as [[s j] [E Hin]].
    simpl in E. subst j. apply in_ranked in Hin as [Hs Hpos].
    rewrite Hi in Hs. injection Hs as <-. lia. }
  rewrite Hlen. now apply ranked_length.
Qed.

(** C2 on an input: three candidates scored 7, 0 and 9 with a cap of 2. *)
Lemma selection_capped_descending_positive_witness :
  0 <= 2
  /\ exists out,
       result (filter_with_ai (scripted no_feeds) three_posts 2
                 ([reply "7"; reply "0"; reply "9"], []))
       = Ret out
       /\ Z.of_nat (List.length out) <= 2.
Proof.
  split; [lia|].
  destruct (selection_capped_descending_positive Script
              (scripted no_feeds) three_posts 2
              ([reply "7"; reply "0"; reply "9"], []))
    as (out & sel & Hres & _ & _ & _ & Hlen & _); [lia|].
  exists out. split; [exact Hres | exact Hlen].
Defined.

(** C3: the ordering of the selection is stable.  For every list of
    candidates and whatever scores they receive, two selected candidates
    with equal scores appear in the output in the order they had in the
    input: of two output places [a < b] holding equal scores, the first
    holds the earlier input position. *)
Theorem selection_stable :
  forall (W : Type) (ext : External W) (posts : list Post) (cap : Z) (w : W),
    exists (out : list Post) (sel : list (Z * nat)),
      result (filter_with_ai ext posts cap w) = Ret out
      /\ map Some out = map (fun si => nth_error posts (snd si)) sel
      /\ Forall (fun si =>
                   nth_error (scores_given ext posts w) (snd si) = Some (fst si))
                sel
      /\ forall (a b : nat) (sa sb : Z) (ia ib : nat),
           (a < b)%nat ->
           nth_error sel a = Some (sa, ia) ->
           nth_error sel b = Some (sb, ib) ->
           sa = sb -> (ia < ib)%nat.
Proof.
  intros W ext posts cap w.
  destruct (filter_with_ai_run ext posts cap w) as (out & w1 & t & Hrun & Hout & _).
  exists out, (ranked (scores_given ext posts w) cap).
  split; [now rewrite Hrun|]. split; [exact Hout|].
  split.
  { rewrite Forall_forall. intros [s i] Hin. now apply in_ranked in Hin. }
  intros a b sa sb ia ib Hab Ha Hb E.
  pose proof (sorted_nth_error outranks _ a b _ _
                (ranked_sorted (scores_given ext posts w) cap) Hab Ha Hb) as Hr.
  destruct Hr as [Hlt|[_ Hlt]]; simpl in *; [lia | exact Hlt].
Qed.

(** ** Collection *)

(** C4, as stated, fails for a keyword with an upper-case letter: the text
    is lower-cased, the keyword is not.  "Vintage" is a case-insensitive
    substring of the text of the post "Vintage lamp", which r/Netherlands
    yields, and no candidate is produced. *)
Lemma uppercase_keyword_never_matches :
  In lamp (yielded (one_source "Netherlands"))
  /\ Text.ci_substring "Vintage" (combined_text lamp) = true
  /\ result (fetch_matching_posts (scripted one_source)
               some_reddit "Netherlands" ["Vintage"] ([], []))
     = Ret [].
Proof. split; [now left | split; reflexivity]. Qed.

(** C4, amended: for every set K of lower-case keywords, and every post
    the listing yields, with combined text T, a candidate is produced for
    that post if and only if at least one keyword of K is a case-insensitive
    substring of T: T, with case folded, is some [a ++ k ++ b] for the
    keyword [k] with case folded; nothing else is compared.  The output is
    the matching posts, in listing order. *)
Theorem candidate_iff_keyword_contained :
  forall (W : Type) (ext : External W) (reddit : Reddit) (name : string)
         (keywords : list string) (w : W),
    Forall (fun k => Text.lower k = k) keywords ->
    exists out,
      result (fetch_matching_posts ext reddit name keywords w) = Ret out
      /\ out =
         map (match_dict name)
           (filter (fun post =>
                      existsb (fun k => Text.ci_substring k (combined_text post))
                              keywords)
                   (yielded (fst (subreddit_hot ext reddit name POST_LIMIT w))))
      /\ forall post,
           In post (yielded (fst (subreddit_hot ext reddit name POST_LIMIT w))) ->
           (In (match_dict name post) out <->
            exists k a b,
              In k keywords
              /\ Text.lower (combined_text post)
                 = (a ++ Text.lower k ++ b)%string).
Proof.
  intros W ext reddit name keywords w Hlow.
  set (listing := fst (subreddit_hot ext reddit name POST_LIMIT w)).
  assert (Hsame : forall post,
             any_keyword_in keywords (combined_text post) =
             existsb (fun k => Text.ci_substring k (combined_text post)) keywords).
  { intros post. unfold any_keyword_in.
    induction Hlow as [|k ks Hk Hks IH]; simpl; [reflexivity|].
    rewrite IH. f_equal. unfold Text.ci_substring, combined_text.
    now rewrite Hk, lower_idempotent. }
  exists (matches_in name keywords listing).
  split; [now rewrite fetch_matching_posts_run|].
  split.
  { unfold matches_in. f_equal. apply filter_ext. exact Hsame. }
  intros post Hin. unfold matches_in. rewrite in_map_iff.
  assert (Hiff : any_keyword_in keywords (combined_text post) = true <->
                 exists k a b,
                   In k keywords
                   /\ Text.lower (combined_text post)
                      = (a ++ Text.lower k ++ b)%string).
  { rewrite Hsame, existsb_exists. split.
    - intros [k [Hk Hc]]. apply contains_spec in Hc as [a [b Hab]].
      now exists k, a, b.
    - intros [k [a [b [Hk Hab]]]]. exists k. split; [exact Hk|].
      apply contains_spec. now exists a, b. }
  rewrite <- Hiff. split.
  - intros [post' [E Hin']]. apply filter_In in Hin' as [_ Hm].
    assert (Ht : combined_text post' = combined_text post)
      by exact (f_equal text E).
    now rewrite <- Ht.
  - intros Hm. exists post. split; [reflexivity|].
    apply filter_In. split; assumption.
Qed.

(** C4 on an input: the configured keywords are lower-case, and on the
    listing of r/Netherlands they pick the three matching posts. *)
Lemma candidate_iff_keyword_contained_witness :
  Forall (fun k => Text.lower k = k) KEYWORDS
  /\ exists out,
       result (fetch_matching_posts (scripted one_source)
                 some_reddit "Netherlands" KEYWORDS ([], []))
       = Ret out
       /\ (In (match_dict "Netherlands" lamp) out <->
           exists k a b,
             In k KEYWORDS
             /\ Text.lower (combined_text lamp)
                = (a ++ Text.lower k ++ b)%string).
Proof.
  assert (Hlow : Forall (fun k => Text.lower k = k) KEYWORDS)
    by (repeat constructor).
  split; [exact Hlow|].
  destruct (candidate_iff_keyword_contained Script
              (scripted one_source) some_reddit "Netherlands"
              KEYWORDS ([], []) Hlow)
    as (out & Hres & _ & Hiff).
  exists out. split; [exact Hres|].
  apply Hiff. now left.
Defined.

(** C5, as stated, fails when a source raises after it has yielded posts:
    r/Belgium yields a matching post and then raises, and its contribution
    is that post, not the empty sequence. *)
Lemma failing_source_keeps_earlier_matches :
  failure (breaking_source "Belgium") = Some (RequestError "503")
  /\ fetch_matching_posts (scripted breaking_source)
       some_reddit "Belgium" KEYWORDS ([], [])
     = (Ret [post_of "Belgium" lamp], ([], []),
        [Fetch "Belgium" 20;
         Log ERROR (FetchError "Belgium" (RequestError "503"))])
  /\ [post_of "Belgium" lamp] <> [].
Proof. split; [reflexivity | split; [reflexivity | discriminate]]. Qed.

(** C5, amended: collection tolerates the failure of a source.  For every
    list of sources, whichever of them raise, the scan raises nothing,
    requests every source in order, and collects, source by source, the
    keyword matches among the posts each one yielded; so a failing source
    takes nothing away from the others.  What the failing source contributes
    is the matches it yielded before the error: the empty sequence when it
    raises before its first post. *)
Theorem collection_isolates_source_failures :
  forall (W : Type) (ext : External W) (reddit : Reddit)
         (subs keywords : list string) (w : W),
    result (scan_loop ext reddit subs keywords [] w)
    = Ret (matches_of_all subs keywords (listings_served ext reddit subs w))
    /\ fetches (trace (scan_loop ext reddit subs keywords [] w)) = subs
    /\ (forall j name listing,
          nth_error subs j = Some name ->
          nth_error (listings_served ext reddit subs w) j = Some listing ->
          incl (map (match_dict name)
                  (filter (fun post =>
                             any_keyword_in keywords (combined_text post))
                          (yielded listing)))
               (matches_of_all subs keywords
                  (listings_served ext reddit subs w)))
    /\ (forall name e, matches_in name keywords (Broken e) = []).
Proof.
  intros W ext reddit subs keywords w.
  destruct (scan_loop_run ext reddit subs keywords [] w)
    as (w1 & t & Hrun & Hf & _).
  rewrite Hrun. split; [reflexivity|]. split; [exact Hf|].
  split; [|reflexivity].
  intros j name listing Hs Hl.
  exact (matches_of_all_incl subs keywords _ j name listing Hs Hl).
Qed.

(** ** Delivery *)

(** C6, as stated, fails: no count of successful deliveries is returned or
    reported.  With three selected items and a webhook that fails the
    second call, [send_to_slack] returns nothing, two deliveries succeed (the
    first and the third), and the count [main] reports is 3. *)
Lemma reported_count_ignores_failures :
  let run :=
    main (scripted one_source)
         ([reply "9"; reply "8"; reply "7"], second_fails) in
  result (send_to_slack (scripted one_source) three_posts
            ([], second_fails))
  = Ret tt
  /\ map delivered (deliveries (trace run)) = [true; false; true]
  /\ List.length (filter delivered (deliveries (trace run))) = 2%nat
  /\ reported_sent (trace run) = Some 3%nat
  /\ reported_sent (trace run) <> Some 2%nat.
Proof. vm_compute. repeat split; discriminate. Qed.

(** C6, amended: [send_to_slack] returns no value and raises nothing; it
    makes exactly one delivery call per item, in order, each with the
    message of its item, whatever the webhook answered to the calls before:
    a failed delivery does not block the following ones.  The count then
    reported by [main] is the number of selected items. *)
Theorem delivery_attempts_every_item :
  forall (W : Type) (ext : External W) (posts : list Post) (w : W),
    result (send_to_slack ext posts w) = Ret tt
    /\ map fst (deliveries (trace (send_to_slack ext posts w)))
       = map slack_message posts
    /\ map snd (deliveries (trace (send_to_slack ext posts w)))
       = webhook_answers ext posts w
    /\ reported_sent (trace (notify ext posts w))
       = match posts with
         | [] => None
         | _ :: _ => Some (List.length posts)
         end.
Proof.
  intros W ext posts w.
  destruct (send_to_slack_calls ext posts w) as (Hres & Hmsg & Hans).
  destruct (notify_run ext posts w) as (w2 & t2 & Hn & _ & _ & _ & Hr).
  rewrite Hn. repeat split; assumption.
Qed.

(** ** Errors that stop the run *)

(** C7, as stated, fails: credentials that are unusable for every call do
    not abort the run when the client can still be constructed with them.
    Every listing is refused, every source is nevertheless requested, and
    the run ends normally. *)
Lemma rejected_credentials_do_not_abort :
  credentials_unusable (scripted rejected)
  /\ result (main (scripted rejected) ([], [])) = Ret tt
  /\ fetches (trace (main (scripted rejected) ([], [])))
     = SUBREDDITS.
Proof. split; [intros reddit name limit w; reflexivity | split; reflexivity]. Qed.

(** C7, amended: an error raised while the source client is constructed
    surfaces immediately and aborts the whole run before anything is
    fetched, and it is the only error that stops the pipeline: once the
    client is constructed, the run requests every source and ends normally.
    An error raised while fetching, of whatever kind, is not told apart: the
    fetch of a source raises nothing. *)
Theorem only_construction_errors_abort :
  forall (W : Type) (ext : External W) (subs keywords : list string)
         (cap : Z) (w : W),
    match praw_Reddit ext (REDDIT_CLIENT_ID ext) (REDDIT_CLIENT_SECRET ext)
            (REDDIT_USER_AGENT ext) w with
    | (Raise e, w1) =>
        main_on ext subs keywords cap w
        = (Raise e, w1, [Log INFO Starting; Construct])
    | (Ret _, _) =>
        result (main_on ext subs keywords cap w) = Ret tt
        /\ fetches (trace (main_on ext subs keywords cap w)) = subs
    end
    /\ forall reddit name w', exists out,
         result (fetch_matching_posts ext reddit name keywords w') = Ret out.
Proof.
  intros W ext subs keywords cap w. split.
  - pose proof (main_on_run ext subs keywords cap w) as Hrun.
    destruct (praw_Reddit ext (REDDIT_CLIENT_ID ext) (REDDIT_CLIENT_SECRET ext)
                (REDDIT_USER_AGENT ext) w) as [[reddit|e] w1].
    + destruct Hrun as (w2 & t & -> & Hf & _). split; [reflexivity | exact Hf].
    + exact Hrun.
  - intros reddit name w'. rewrite fetch_matching_posts_run.
    eexists. reflexivity.
Qed.



(** ** Determinism *)

(** C10: scoring and selection are deterministic.  Two runs on the same
    list of candidates in which every candidate receives the same score,
    in whatever worlds, select the same sequence; and [send_to_slack] makes
    its delivery calls in exactly the order of the sequence it is given, one
    call per item. *)
Theorem selection_and_delivery_deterministic :
  forall (W1 W2 : Type) (ext1 : External W1) (ext2 : External W2)
         (posts : list Post) (cap : Z) (w1 : W1) (w2 : W2),
    scores_given ext1 posts w1 = scores_given ext2 posts w2 ->
    result (filter_with_ai ext1 posts cap w1)
    = result (filter_with_ai ext2 posts cap w2)
    /\ forall (selection : list Post) (w : W1),
         map fst (deliveries (trace (send_to_slack ext1 selection w)))
         = map slack_message selection.
Proof.
  intros W1 W2 ext1 ext2 posts cap w1 w2 Hscores. split.
  - destruct (filter_with_ai_run ext1 posts cap w1)
      as (out1 & wa & ta & Hrun1 & Hout1 & _).
    destruct (filter_with_ai_run ext2 posts cap w2)
      as (out2 & wb & tb & Hrun2 & Hout2 & _).
    rewrite Hrun1, Hrun2. unfold result. simpl. f_equal.
    apply map_Some_inj. now rewrite Hout1, Hout2, Hscores.
  - intros selection w. apply (send_to_slack_calls ext1 selection w).
Qed.

(** C10 on an input: two worlds whose oracles word their replies
    differently and give the same scores. *)
Lemma selection_and_delivery_deterministic_witness :
  scores_given (scripted no_feeds) three_posts
    ([reply "7"; reply "9"; reply "7"], [])
  = scores_given (scripted one_source) three_posts
      ([reply " 7 "; reply "9."; reply "score: 7"], second_fails)
  /\ result (filter_with_ai (scripted no_feeds) three_posts 2
               ([reply "7"; reply "9"; reply "7"], []))
     = result (filter_with_ai (scripted one_source)
                 three_posts 2
                 ([reply " 7 "; reply "9."; reply "score: 7"], second_fails)).
Proof.
  assert (Hscores :
    scores_given (scripted no_feeds) three_posts
      ([reply "7"; reply "9"; reply "7"], [])
    = scores_given (scripted one_source) three_posts
        ([reply " 7 "; reply "9."; reply "score: 7"], second_fails))
    by reflexivity.
  split; [exact Hscores|].
  exact (proj1 (selection_and_delivery_deterministic Script Script
                  (scripted no_feeds)
                  (scripted one_source)
                  three_posts 2 _ _ Hscores)).
Defined.

(* ================================================================== *)
(** * Further lemmas *)
(* ================================================================== *)

Lemma error_logs_app (t1 t2 : list event) :
  error_logs (t1 ++ t2) = error_logs t1 ++ error_logs t2.
Proof.
  induction t1 as [|[| | | |[] r] t1 IH]; simpl; try assumption.
  - reflexivity.
  - now rewrite IH.
Qed.

Lemma filter_split_perm {A : Type} (p : A -> bool) (l : list A) :
  Permutation (filter p l ++ filter (fun x => negb (p x)) l) l.
Proof.
  induction l as [|x l IH]; simpl.
  - apply perm_nil.
  - destruct (p x); simpl.
    + now apply perm_skip.
    + eapply perm_trans; [apply Permutation_sym, Permutation_middle|].
      now apply perm_skip.
Qed.

Lemma map_snd_combine_same_length {A B : Type} (l1 : list A) (l2 : list B) :
  List.length l1 = List.length l2 -> map snd (combine l1 l2) = l2.
Proof.
  revert l2. induction l1 as [|x l1 IH]; intros [|y l2] Hlen;
    simpl in *; try discriminate; [reflexivity|].
  f_equal. apply IH. lia.
Qed.

Lemma lower_length (s : string) :
  String.length (Text.lower s) = String.length s.
Proof. induction s as [|c s IH]; simpl; [reflexivity | now rewrite IH]. Qed.

Lemma string_app_length (a b : string) :
  String.length (a ++ b) = (String.length a + String.length b)%nat.
Proof. induction a as [|c a IH]; simpl; [reflexivity | now rewrite IH]. Qed.

Lemma contains_empty (t : string) : Text.contains "" t = true.
Proof. destruct t; reflexivity. Qed.

(** ** The value of a run of digits *)

Lemma base10_below (digits : list ascii) (acc : Z) :
  0 <= acc -> forallb Text.isdecimal digits = true ->
  base10 acc digits < (acc + 1) * 10 ^ Z.of_nat (List.length digits).
Proof.
  revert acc.
  induction digits as [|d digits IH]; intros acc Hacc Hall.
  - cbn [base10 List.length]. change (10 ^ Z.of_nat 0) with 1. lia.
  - cbn [forallb] in Hall. apply andb_prop in Hall as [Hd Hall].
    pose proof (digit_value_range d Hd) as Hr.
    cbn [base10 List.length]. rewrite Nat2Z.inj_succ, Z.pow_succ_r by lia.
    specialize (IH (10 * acc + Text.digit_value d) ltac:(lia) Hall).
    assert (Hpow : 0 < 10 ^ Z.of_nat (List.length digits))
      by (apply Z.pow_pos_nonneg; lia).
    nia.
Qed.

Lemma digit_zero_iff (c : ascii) :
  Text.isdecimal c = true ->
  (Text.digit_value c = 0 <-> Ascii.eqb c "0" = true).
Proof. each_char c; vm_compute; intuition congruence. Qed.

Lemma base10_zero_iff (digits : list ascii) (acc : Z) :
  0 <= acc -> forallb Text.isdecimal digits = true ->
  (base10 acc digits = 0 <->
   acc = 0 /\ forallb (fun d => Ascii.eqb d "0") digits = true).
Proof.
  revert acc.
  induction digits as [|d digits IH]; intros acc Hacc Hall.
  - cbn [base10 forallb]. tauto.
  - cbn [forallb] in Hall. apply andb_prop in Hall as [Hd Hall].
    pose proof (digit_value_range d Hd) as Hr.
    pose proof (digit_zero_iff d Hd) as Hz.
    cbn [base10 forallb]. rewrite andb_true_iff.
    rewrite (IH (10 * acc + Text.digit_value d)) by (lia || assumption).
    split.
    + intros [Hsum Hrest]. split; [lia|]. split; [apply Hz; lia | exact Hrest].
    + intros [-> [Hd0 Hrest]]. apply Hz in Hd0. split; [lia | exact Hrest].
Qed.

(** ** Runs, in full *)

Section MoreRuns.

Context {W : Type} (ext : External W).

Ltac steps :=
  unfold bind, try_except, lift, ret, raise, logging_error, logging_info, emit,
    call_chat, call_hot, call_post, call_Reddit.

Lemma filter_with_ai_selected (posts : list Post) (cap : Z) (w : W) :
  result (filter_with_ai ext posts cap w)
  = Ret (selection_of (scores_given ext posts w) posts cap).
Proof.
  unfold filter_with_ai, bind.
  destruct (scoring_loop_run ext posts [] w) as (w1 & t & Hrun & _).
  rewrite Hrun. reflexivity.
Qed.

Lemma filter_with_ai_calls (posts : list Post) (cap : Z) (w : W) :
  asks (trace (filter_with_ai ext posts cap w)) = map prompt_for posts
  /\ fetches (trace (filter_with_ai ext posts cap w)) = []
  /\ deliveries (trace (filter_with_ai ext posts cap w)) = [].
Proof.
  destruct (filter_with_ai_run ext posts cap w)
    as (out & w1 & t & Hrun & _ & Ha & Hd & Hf & _).
  rewrite Hrun. now repeat split.
Qed.

(** The outcome of one delivery decides what is logged for it. *)
Lemma send_to_slack_step (post : Post) (rest : list Post) (w : W) :
  exists log,
    send_to_slack ext (post :: rest) w
    = (result
         (send_to_slack ext rest
            (snd (requests_post ext (SLACK_WEBHOOK_URL ext)
                    (slack_message post) w))),
       world_after
         (send_to_slack ext rest
            (snd (requests_post ext (SLACK_WEBHOOK_URL ext)
                    (slack_message post) w))),
       Deliver (SLACK_WEBHOOK_URL ext) (slack_message post)
         (fst (requests_post ext (SLACK_WEBHOOK_URL ext)
                 (slack_message post) w))
       :: log
       ++ trace
            (send_to_slack ext rest
               (snd (requests_post ext (SLACK_WEBHOOK_URL ext)
                       (slack_message post) w))))
    /\ deliveries log = [] /\ asks log = [] /\ fetches log = []
    /\ List.length (error_logs log)
       = if delivered
              (slack_message post,
               fst (requests_post ext (SLACK_WEBHOOK_URL ext)
                      (slack_message post) w))
         then 0%nat else 1%nat.
Proof.
  cbn [send_to_slack]. steps.
  destruct (requests_post ext (SLACK_WEBHOOK_URL ext) (slack_message post) w)
    as [[res|e] w1]; cbn [fst snd delivered].
  - destruct (status_code res =? 200) eqn:Hcode; cbn [negb].
    + exists []. destruct (send_to_slack ext rest w1) as [[r w2] t].
      now repeat split.
    + exists [Log ERROR (SlackError (status_code res) (body_text res))].
      destruct (send_to_slack ext rest w1) as [[r w2] t].
      now repeat split.
  - exists [Log ERROR (SlackSendFailed e)].
    destruct (send_to_slack ext rest w1) as [[r w2] t].
    now repeat split.
Qed.

End MoreRuns.

Section MoreWholeRuns.

Context {W : Type} (ext : External W).

(** The list handed to the scan only prefixes what it collects. *)
Lemma scan_loop_acc (reddit : Reddit) (subs keywords : list string)
    (all_matches : list Post) (w : W) :
  scan_loop ext reddit subs keywords all_matches w
  = (Ret (all_matches ++
          matches_of_all subs keywords (listings_served ext reddit subs w)),
     world_after (scan_loop ext reddit subs keywords [] w),
     trace (scan_loop ext reddit subs keywords [] w)).
Proof.
  revert all_matches w.
  induction subs as [|sub subs IH]; intros all_matches w.
  - cbn [scan_loop listings_served matches_of_all]. unfold ret.
    now rewrite app_nil_r.
  - cbn [scan_loop listings_served]. unfold bind, logging_info, emit.
    rewrite fetch_matching_posts_run.
    destruct (subreddit_hot ext reddit sub POST_LIMIT w) as [listing w1].
    cbn [fst snd matches_of_all].
    rewrite (IH (all_matches ++ matches_in sub keywords listing) w1).
    rewrite (IH ([] ++ matches_in sub keywords listing) w1).
    unfold world_after, trace. cbn [fst snd].
    now rewrite <- app_assoc.
Qed.

Lemma scan_loop_app (reddit : Reddit) (first second keywords : list string)
    (all_matches : list Post) (w : W) :
  scan_loop ext reddit (first ++ second) keywords all_matches w
  = (Ret (all_matches
          ++ matches_of_all first keywords
               (listings_served ext reddit first w)
          ++ matches_of_all second keywords
               (listings_served ext reddit second
                  (world_after (scan_loop ext reddit first keywords [] w)))),
     world_after
       (scan_loop ext reddit second keywords []
          (world_after (scan_loop ext reddit first keywords [] w))),
     trace (scan_loop ext reddit first keywords [] w)
     ++ trace
          (scan_loop ext reddit second keywords []
             (world_after (scan_loop ext reddit first keywords [] w)))).
Proof.
  revert all_matches w.
  induction first as [|sub first IH]; intros all_matches w.
  - cbn [app scan_loop listings_served matches_of_all]. unfold ret.
    change (world_after (Ret (@nil Post), w, @nil event)) with w.
    change (trace (Ret (@nil Post), w, @nil event)) with (@nil event).
    apply scan_loop_acc.
  - cbn [app scan_loop listings_served]. unfold bind, logging_info, emit.
    rewrite fetch_matching_posts_run.
    destruct (subreddit_hot ext reddit sub POST_LIMIT w) as [listing w1].
    cbn [fst snd matches_of_all].
    rewrite (IH (all_matches ++ matches_in sub keywords listing) w1).
    rewrite (scan_loop_acc reddit first keywords
               (matches_in sub keywords listing) w1).
    unfold world_after, trace. cbn [fst snd app].
    rewrite <- !app_assoc. reflexivity.
Qed.

(** A run of [main] that gets its client, stage by stage. *)
Lemma main_on_stages (subs keywords : list string) (cap : Z) (w : W)
    (reddit : Reddit) (w1 : W) :
  praw_Reddit ext (REDDIT_CLIENT_ID ext) (REDDIT_CLIENT_SECRET ext)
    (REDDIT_USER_AGENT ext) w = (Ret reddit, w1) ->
  exists w2 t1,
    scan_loop ext reddit subs keywords [] w1
    = (Ret (matches_of_all subs keywords (listings_served ext reddit subs w1)),
       w2, t1)
    /\ fetches t1 = subs /\ asks t1 = [] /\ deliveries t1 = []
    /\ reported_sent t1 = None
    /\ match matches_of_all subs keywords
               (listings_served ext reddit subs w1) with
       | [] =>
           main_on ext subs keywords cap w
           = (Ret tt, w2,
              Log INFO Starting :: Construct
              :: t1 ++ [Log INFO NoKeywordMatches])
       | m :: ms =>
           main_on ext subs keywords cap w
           = (Ret tt,
              world_after
                (notify ext
                   (selection_of (scores_given ext (m :: ms) w2) (m :: ms) cap)
                   (world_after (filter_with_ai ext (m :: ms) cap w2))),
              Log INFO Starting :: Construct
              :: t1
              ++ trace (filter_with_ai ext (m :: ms) cap w2)
              ++ trace
                   (notify ext
                      (selection_of (scores_given ext (m :: ms) w2)
                         (m :: ms) cap)
                      (world_after (filter_with_ai ext (m :: ms) cap w2))))
       end.
Proof.
  intros Hctor.
  destruct (scan_loop_run ext reddit subs keywords [] w1)
    as (w2 & t1 & Hscan & Hf & Ha & Hd & Hr).
  cbn [app] in Hscan.
  exists w2, t1. split; [exact Hscan|]. repeat (split; [assumption|]).
  destruct (matches_of_all subs keywords (listings_served ext reddit subs w1))
    as [|m ms] eqn:Hm;
    unfold main_on, create_reddit_instance, call_Reddit;
    unfold bind at 1; unfold logging_info at 1; unfold emit;
    unfold bind at 1; rewrite Hctor;
    unfold bind at 1; rewrite Hscan.
  - unfold logging_info, emit. reflexivity.
  - unfold bind.
    pose proof (filter_with_ai_selected ext (m :: ms) cap w2) as Hsel.
    destruct (filter_with_ai ext (m :: ms) cap w2) as [[r3 w3] t3].
    unfold result in Hsel. cbn [fst snd] in Hsel. subst r3.
    change (world_after
              (Ret (selection_of (scores_given ext (m :: ms) w2) (m :: ms) cap),
               w3, t3)) with w3.
    change (trace
              (Ret (selection_of (scores_given ext (m :: ms) w2) (m :: ms) cap),
               w3, t3)) with t3.
    destruct (notify_run ext
                (selection_of (scores_given ext (m :: ms) w2) (m :: ms) cap) w3)
      as (w4 & t4 & Hn & _).
    rewrite Hn. unfold world_after, trace. cbn [fst snd app]. reflexivity.
Qed.

End MoreWholeRuns.

(** ** Selections *)

Lemma positive_scored_length (scores : list Z) (posts : list Post) :
  (List.length (positive_scored scores posts) <= List.length posts)%nat.
Proof.
  unfold positive_scored.
  eapply Nat.le_trans; [apply filter_length_le|].
  rewrite length_combine. apply Nat.le_min_r.
Qed.

(** Nothing is selected that was not given, and nothing twice. *)
Lemma selection_of_part (scores : list Z) (posts : list Post) (cap : Z) :
  List.length scores = List.length posts ->
  exists rest, Permutation (selection_of scores posts cap ++ rest) posts.
Proof.
  intros Hlen. unfold selection_of, positive_scored.
  set (kept := filter (fun sp : Z * Post => 0 <? fst sp) (combine scores posts)).
  destruct (slice_to_firstn (sort_desc kept) cap) as [n ->].
  exists (map snd (skipn n (sort_desc kept))
          ++ map snd (filter (fun sp : Z * Post => negb (0 <? fst sp))
                        (combine scores posts))).
  rewrite app_assoc, <- map_app, firstn_skipn, <- map_app.
  rewrite <- (map_snd_combine_same_length scores posts Hlen) at 2.
  apply Permutation_map.
  eapply perm_trans; [|apply (filter_split_perm (fun sp => 0 <? fst sp))].
  apply Permutation_app_tail, sort_desc_perm.
Qed.

Lemma selection_of_all (scores : list Z) (posts : list Post) (cap : Z) :
  Z.of_nat (List.length (positive_scored scores posts)) <= cap ->
  Permutation (selection_of scores posts cap)
              (map snd (positive_scored scores posts)).
Proof.
  intros Hcap. unfold selection_of, slice_to.
  destruct (cap <? 0) eqn:E; [apply Z.ltb_lt in E; lia|].
  rewrite firstn_all2 by (rewrite sort_desc_length; lia).
  apply Permutation_map, sort_desc_perm.
Qed.

Lemma selection_of_prefix (scores : list Z) (posts : list Post) (k k' : Z) :
  0 <= k <= k' ->
  selection_of scores posts k
  = firstn (Z.to_nat k) (selection_of scores posts k').
Proof.
  intros Hk. unfold selection_of, slice_to.
  destruct (k <? 0) eqn:E; [apply Z.ltb_lt in E; lia|].
  destruct (k' <? 0) eqn:E'; [apply Z.ltb_lt in E'; lia|].
  rewrite <- firstn_map, <- (firstn_map snd (Z.to_nat k')), firstn_firstn.
  f_equal. lia.
Qed.

Lemma selection_of_negative (scores : list Z) (posts : list Post) (cap : Z) :
  cap < 0 ->
  selection_of scores posts cap
  = firstn
      (Z.to_nat
         (Z.of_nat
            (List.length
               (selection_of scores posts (Z.of_nat (List.length posts))))
          + cap))
      (selection_of scores posts (Z.of_nat (List.length posts))).
Proof.
  intros Hcap. unfold selection_of, slice_to.
  apply Z.ltb_lt in Hcap. rewrite Hcap.
  destruct (Z.of_nat (List.length posts) <? 0) eqn:E;
    [apply Z.ltb_lt in E; lia|].
  rewrite Nat2Z.id.
  rewrite (firstn_all2 (n := List.length posts))
    by (rewrite sort_desc_length; apply positive_scored_length).
  now rewrite length_map, firstn_map.
Qed.

Lemma indexed_in (scores : list Z) (start i : nat) (s : Z) :
  nth_error scores i = Some s ->
  In (s, (start + i)%nat) (combine scores (seq start (List.length scores))).
Proof.
  revert start i. induction scores as [|x scores IH]; intros start i Hi.
  - destruct i; discriminate.
  - destruct i as [|i]; simpl in *.
    + injection Hi as ->. left. now rewrite Nat.add_0_r.
    + right. replace (start + S i)%nat with (S start + i)%nat by lia.
      now apply IH.
Qed.

(** The first of a ranking has the highest score of all. *)
Lemma ranked_head_max (scores : list Z) (cap : Z) :
  0 < cap ->
  match ranked scores cap with
  | [] => Forall (fun s => s <= 0) scores
  | (s0, _) :: _ => Forall (fun s => s <= s0) scores
  end.
Proof.
  intros Hcap.
  pose proof (in_ranked scores cap) as Hin.
  unfold ranked in *. unfold slice_to in *.
  destruct (cap <? 0) eqn:E; [apply Z.ltb_lt in E; lia|].
  set (kept := filter (fun sp : Z * nat => 0 <? fst sp)
                 (combine scores (seq 0 (List.length scores)))) in *.
  assert (Hsorted : StronglySorted (ranks_above lt) (sort_desc kept)).
  { apply sort_desc_sorted.
    apply StronglySorted_filter, indexed_increasing. }
  assert (Hkept : forall s i, nth_error scores i = Some s -> 0 < s ->
                              In (s, i) (sort_desc kept)).
  { intros s i Hi Hs.
    apply (Permutation_in _ (Permutation_sym (sort_desc_perm kept))).
    apply filter_In. split.
    - exact (indexed_in scores 0 i s Hi).
    - now apply Z.ltb_lt. }
  destruct (Z.to_nat cap) as [|n] eqn:Hn; [lia|].
  destruct (sort_desc kept) as [|[s0 i0] tl]; cbn [firstn].
  - rewrite Forall_forall. intros s Hs.
    apply In_nth_error in Hs as [i Hi].
    destruct (Z_lt_le_dec 0 s) as [Hpos|Hle]; [|exact Hle].
    destruct (Hkept s i Hi Hpos).
  - rewrite Forall_forall. intros s Hs.
    apply In_nth_error in Hs as [i Hi].
    assert (Hs0 : 0 < s0).
    { apply (Hin s0 i0). cbn [firstn]. now left. }
    destruct (Z_lt_le_dec 0 s) as [Hpos|Hle]; [|lia].
    destruct (Hkept s i Hi Hpos) as [E'|Htl].
    + injection E' as -> _. lia.
    + inversion Hsorted as [|? ? _ Hall]; subst.
      rewrite Forall_forall in Hall. specialize (Hall _ Htl).
      destruct Hall as [H|[H _]]; simpl in H; lia.
Qed.

Lemma selection_of_length (scores : list Z) (posts : list Post) (cap : Z) :
  0 <= cap ->
  Z.of_nat (List.length (selection_of scores posts cap)) <= cap.
Proof.
  intros Hcap. unfold selection_of.
  rewrite length_map, slice_to_length by exact Hcap. lia.
Qed.

Lemma lower_app (a b : string) :
  Text.lower (a ++ b) = (Text.lower a ++ Text.lower b)%string.
Proof. induction a as [|c a IH]; simpl; [reflexivity | now rewrite IH]. Qed.

Lemma starts_with_app (a b : string) : Text.starts_with a (a ++ b) = true.
Proof. apply starts_with_spec. now exists b. Qed.

Lemma not_all_zero (digits : list ascii) :
  forallb (fun d => Ascii.eqb d "0") digits = false <->
  existsb (fun d => negb (Ascii.eqb d "0")) digits = true.
Proof.
  induction digits as [|d digits IH]; simpl.
  - split; discriminate.
  - destruct (Ascii.eqb d "0"); simpl; [exact IH | tauto].
Qed.

(* ================================================================== *)
(** * Further properties of the code *)
(* ================================================================== *)

(** ** [fetch_matching_posts] *)

(** X1: a fetch raises nothing and requests the listing exactly once; it
    calls neither the oracle nor the webhook; and it writes an ERROR record
    exactly when the listing raised, naming the source and the exception. *)
Theorem fetch_requests_once_and_logs_failure :
  forall (W : Type) (ext : External W) (reddit : Reddit) (name : string)
         (keywords : list string) (w : W),
  exists out,
    result (fetch_matching_posts ext reddit name keywords w) = Ret out
    /\ world_after (fetch_matching_posts ext reddit name keywords w)
       = snd (subreddit_hot ext reddit name POST_LIMIT w)
    /\ fetches (trace (fetch_matching_posts ext reddit name keywords w))
       = [name]
    /\ asks (trace (fetch_matching_posts ext reddit name keywords w)) = []
    /\ deliveries (trace (fetch_matching_posts ext reddit name keywords w)) = []
    /\ error_logs (trace (fetch_matching_posts ext reddit name keywords w))
       = match failure (fst (subreddit_hot ext reddit name POST_LIMIT w)) with
         | None => []
         | Some e => [FetchError name e]
         end.
Proof.
  intros W ext reddit name keywords w.
  rewrite fetch_matching_posts_run. unfold result, world_after, trace.
  cbn [fst snd]. eexists. split; [reflexivity|].
  destruct (failure (fst (subreddit_hot ext reddit name POST_LIMIT w)));
    now repeat split.
Qed.

(** X2: every candidate a fetch returns is well formed: it carries the
    name of the source it was asked for, a permalink under
    https://reddit.com, and a text that is not empty, is in lower case,
    begins with its own title in lower case, and holds at least one of the
    keywords. *)
Theorem candidates_well_formed :
  forall (W : Type) (ext : External W) (reddit : Reddit) (name : string)
         (keywords : list string) (w : W),
  exists out,
    result (fetch_matching_posts ext reddit name keywords w) = Ret out
    /\ Forall (fun p =>
                 subreddit p = name
                 /\ Text.starts_with "https://reddit.com" (permalink p) = true
                 /\ text p <> ""
                 /\ Text.lower (text p) = text p
                 /\ Text.starts_with (Text.lower (title p)) (text p) = true
                 /\ any_keyword_in keywords (text p) = true)
              out.
Proof.
  intros W ext reddit name keywords w.
  rewrite fetch_matching_posts_run. eexists. split; [reflexivity|].
  rewrite Forall_forall. intros p Hin. unfold matches_in in Hin.
  apply in_map_iff in Hin as [post [<- Hin]].
  apply filter_In in Hin as [_ Hmatch].
  cbn [match_dict subreddit permalink text title].
  split; [reflexivity|]. split; [apply starts_with_app|].
  unfold combined_text in *. split.
  { intros E. apply (f_equal String.length) in E.
    rewrite lower_length, string_app_length in E. simpl in E. lia. }
  split; [apply lower_idempotent|].
  split; [rewrite lower_app; apply starts_with_app | exact Hmatch].
Qed.

(** X3: the edges of the keyword list.  With the empty string among the
    keywords every post the listing yields becomes a candidate, since the
    empty string occurs in every text; with no keyword at all none does. *)
Theorem empty_keyword_matches_everything :
  forall (W : Type) (ext : External W) (reddit : Reddit) (name : string)
         (keywords : list string) (w : W),
    In "" keywords ->
    result (fetch_matching_posts ext reddit name keywords w)
    = Ret (map (match_dict name)
             (yielded (fst (subreddit_hot ext reddit name POST_LIMIT w))))
    /\ result (fetch_matching_posts ext reddit name [] w) = Ret [].
Proof.
  intros W ext reddit name keywords w Hin.
  rewrite !fetch_matching_posts_run. unfold result, matches_in. cbn [fst].
  split; f_equal; f_equal.
  - apply forallb_filter_id. apply forallb_forall. intros post _.
    unfold any_keyword_in. apply existsb_exists.
    exists ""%string. split; [exact Hin | apply contains_empty].
  - induction (yielded (fst (subreddit_hot ext reddit name POST_LIMIT w)))
      as [|post posts IH]; [reflexivity | exact IH].
Qed.

Lemma empty_keyword_matches_everything_witness :
  In ""%string ["vintage"; ""]%string
  /\ result (fetch_matching_posts (scripted one_source) some_reddit
               "Netherlands" ["vintage"; ""]%string ([], []))
     = Ret (map (match_dict "Netherlands") [lamp; soup; chair; desk]).
Proof.
  assert (Hin : In ""%string ["vintage"; ""]%string) by (right; now left).
  split; [exact Hin|].
  exact (proj1 (empty_keyword_matches_everything Script (scripted one_source)
                  some_reddit "Netherlands" ["vintage"; ""]%string ([], [])
                  Hin)).
Defined.

(** X4: a longer keyword list never loses a candidate: on the same
    listing, every candidate found with a list of keywords is found with
    any list that includes it. *)
Theorem more_keywords_keep_candidates :
  forall (W : Type) (ext : External W) (reddit : Reddit) (name : string)
         (keywords more : list string) (w : W),
    incl keywords more ->
    exists out out',
      result (fetch_matching_posts ext reddit name keywords w) = Ret out
      /\ result (fetch_matching_posts ext reddit name more w) = Ret out'
      /\ incl out out'.
Proof.
  intros W ext reddit name keywords more w Hincl.
  rewrite !fetch_matching_posts_run. eexists _, _.
  split; [reflexivity|]. split; [reflexivity|].
  unfold matches_in. intros p Hin.
  apply in_map_iff in Hin as [post [<- Hin]]. apply in_map.
  apply filter_In in Hin as [Hy Hm]. apply filter_In. split; [exact Hy|].
  unfold any_keyword_in in *. apply existsb_exists in Hm as [k [Hk Hc]].
  apply existsb_exists. exists k. split; [apply Hincl, Hk | exact Hc].
Qed.

Lemma more_keywords_keep_candidates_witness :
  incl ["chair"]%string KEYWORDS
  /\ exists out out',
       result (fetch_matching_posts (scripted one_source) some_reddit
                 "Netherlands" ["chair"]%string ([], [])) = Ret out
       /\ result (fetch_matching_posts (scripted one_source) some_reddit
                    "Netherlands" KEYWORDS ([], [])) = Ret out'
       /\ incl out out'.
Proof.
  assert (Hincl : incl ["chair"]%string KEYWORDS).
  { intros k [<-|[]]. unfold KEYWORDS. do 33 right. now left. }
  split; [exact Hincl|].
  exact (more_keywords_keep_candidates Script (scripted one_source)
           some_reddit "Netherlands" ["chair"]%string KEYWORDS ([], []) Hincl).
Defined.

(** ** The scan of the sources *)

(** X5: scanning composes.  Scanning one list of sources and then another,
    from the state the first scan left, gives the same collected sequence,
    the same final state and the same events as scanning the two lists
    joined; the list to extend only prefixes the result.  So a source named
    twice is requested twice and its matches are collected twice. *)
Theorem scan_of_joined_lists :
  forall (W : Type) (ext : External W) (reddit : Reddit)
         (first second keywords : list string) (all_matches : list Post)
         (w : W),
  exists m1 m2,
    result (scan_loop ext reddit first keywords [] w) = Ret m1
    /\ result
         (scan_loop ext reddit second keywords []
            (world_after (scan_loop ext reddit first keywords [] w)))
       = Ret m2
    /\ scan_loop ext reddit (first ++ second) keywords all_matches w
       = (Ret (all_matches ++ m1 ++ m2),
          world_after
            (scan_loop ext reddit second keywords []
               (world_after (scan_loop ext reddit first keywords [] w))),
          trace (scan_loop ext reddit first keywords [] w)
          ++ trace
               (scan_loop ext reddit second keywords []
                  (world_after (scan_loop ext reddit first keywords [] w)))).
Proof.
  intros W ext reddit first second keywords all_matches w.
  eexists _, _. split; [|split].
  - rewrite (scan_loop_acc ext reddit first keywords [] w). reflexivity.
  - rewrite (scan_loop_acc ext reddit second keywords []). reflexivity.
  - apply scan_loop_app.
Qed.

(** ** [score_post_with_ai] *)

(** X6: a score is bounded by the digits of the reply: when the oracle
    answers with a text, the score is at least 0 and below 10 to the number
    of digit characters in that text, which is at most its length. *)
Theorem score_below_power_of_digits :
  forall (W : Type) (ext : External W) (post : Post) (w w1 : W)
         (s : string) (others : list (option string)),
    chat_completions_create ext (prompt_for post) w
    = (Ret {| choices := Some s :: others |}, w1) ->
    exists n,
      result (score_post_with_ai ext post w) = Ret n
      /\ 0 <= n < 10 ^ Z.of_nat (List.length (digits_of s))
      /\ (List.length (digits_of s) <= String.length s)%nat.
Proof.
  intros W ext post w w1 s others Hchat.
  rewrite score_post_with_ai_run, Hchat. cbn [fst].
  eexists. split; [reflexivity|]. split.
  - rewrite score_of_reply_digits. unfold digits_score.
    destruct (digits_of s) as [|d digits] eqn:Hd.
    + cbn. lia.
    + assert (Hpow : 0 < 10 ^ Z.of_nat (List.length (d :: digits)))
        by (apply Z.pow_pos_nonneg; lia).
      destruct (List.length (d :: digits) <=? Text.int_max_str_digits)%nat;
        [|lia].
      destruct (forallb Text.isdecimal (d :: digits)) eqn:Hall; [|lia].
      split; [apply base10_nonneg; [lia | exact Hall]|].
      pose proof (base10_below (d :: digits) 0 ltac:(lia) Hall). lia.
  - unfold digits_of. rewrite <- chars_length. apply filter_length_le.
Qed.

Lemma score_below_power_of_digits_witness :
  chat_completions_create (scripted no_feeds)
    (prompt_for (post_of "Netherlands" lamp)) ([reply "8/10"], [])
  = (Ret {| choices := [Some "8/10"] |}, ([], []))
  /\ exists n,
       result (score_post_with_ai (scripted no_feeds)
                 (post_of "Netherlands" lamp) ([reply "8/10"], [])) = Ret n
       /\ 0 <= n < 10 ^ 3.
Proof.
  split; [reflexivity|].
  destruct (score_below_power_of_digits Script (scripted no_feeds)
              (post_of "Netherlands" lamp) ([reply "8/10"], []) ([], [])
              "8/10" [] eq_refl)
    as (n & Hres & Hbound & _).
  exists n. split; [exact Hres | exact Hbound].
Defined.

(** X7: when a candidate stays in the ranking.  For a reply with a text,
    the score is positive exactly when the text has at most 4300 digit
    characters, every one of them is a decimal digit and at least one of
    them is not 0. *)
Theorem score_positive_iff :
  forall (W : Type) (ext : External W) (post : Post) (w w1 : W)
         (s : string) (others : list (option string)),
    chat_completions_create ext (prompt_for post) w
    = (Ret {| choices := Some s :: others |}, w1) ->
    exists n,
      result (score_post_with_ai ext post w) = Ret n
      /\ (0 < n <->
          (List.length (digits_of s) <= 4300)%nat
          /\ forallb Text.isdecimal (digits_of s) = true
          /\ existsb (fun d => negb (Ascii.eqb d "0")) (digits_of s) = true).
Proof.
  intros W ext post w w1 s others Hchat.
  rewrite score_post_with_ai_run, Hchat. cbn [fst].
  eexists. split; [reflexivity|].
  rewrite score_of_reply_digits. unfold digits_score.
  change Text.int_max_str_digits with 4300%nat.
  destruct (digits_of s) as [|d digits].
  - cbn. split; [lia | intros (_ & _ & H); discriminate].
  - destruct (List.length (d :: digits) <=? 4300)%nat eqn:Hlen.
    + apply Nat.leb_le in Hlen.
      destruct (forallb Text.isdecimal (d :: digits)) eqn:Hall.
      * pose proof (base10_nonneg (d :: digits) 0 ltac:(lia) Hall) as Hge.
        pose proof (base10_zero_iff (d :: digits) 0 ltac:(lia) Hall) as Hz.
        rewrite <- not_all_zero. split.
        -- intros Hpos. split; [exact Hlen|]. split; [reflexivity|].
           destruct (forallb (fun c => Ascii.eqb c "0") (d :: digits)) eqn:E;
             [|reflexivity].
           assert (base10 0 (d :: digits) = 0) by (apply Hz; now split). lia.
        -- intros (_ & _ & Hnz).
           assert (base10 0 (d :: digits) <> 0).
           { intros E. apply Hz in E as [_ E]. congruence. }
           lia.
      * split; [lia | intros (_ & H & _); discriminate].
    + apply Nat.leb_gt in Hlen. split; [lia | intros (H & _); lia].
Qed.

Lemma score_positive_iff_witness :
  chat_completions_create (scripted no_feeds)
    (prompt_for (post_of "Netherlands" lamp)) ([reply "00"], [])
  = (Ret {| choices := [Some "00"] |}, ([], []))
  /\ exists n,
       result (score_post_with_ai (scripted no_feeds)
                 (post_of "Netherlands" lamp) ([reply "00"], [])) = Ret n
       /\ (0 < n <->
           (List.length (digits_of "00") <= 4300)%nat
           /\ forallb Text.isdecimal (digits_of "00") = true
           /\ existsb (fun d => negb (Ascii.eqb d "0")) (digits_of "00")
              = true).
Proof.
  split; [reflexivity|].
  exact (score_positive_iff Script (scripted no_feeds)
           (post_of "Netherlands" lamp) ([reply "00"], []) ([], [])
           "00" [] eq_refl).
Defined.

(** X8: one attempt per candidate.  Scoring a candidate calls the oracle
    exactly once, with the prompt of that candidate, and calls nothing
    else; an ERROR record is written exactly when no score could be read,
    and it names the exception: the one the call raised, [IndexError] for a
    response without choices, [AttributeError] for a choice without content,
    [ValueError] for a text with no digit character, with more than 4300
    of them, or with one that is not a decimal digit. *)
Theorem score_asks_once_and_logs_failure :
  forall (W : Type) (ext : External W) (post : Post) (w : W),
    asks (trace (score_post_with_ai ext post w)) = [prompt_for post]
    /\ fetches (trace (score_post_with_ai ext post w)) = []
    /\ deliveries (trace (score_post_with_ai ext post w)) = []
    /\ world_after (score_post_with_ai ext post w)
       = snd (chat_completions_create ext (prompt_for post) w)
    /\ error_logs (trace (score_post_with_ai ext post w))
       = match fst (chat_completions_create ext (prompt_for post) w) with
         | Raise e => [OpenAIError e]
         | Ret {| choices := [] |} => [OpenAIError IndexError]
         | Ret {| choices := None :: _ |} => [OpenAIError AttributeError]
         | Ret {| choices := Some s :: _ |} =>
             match digits_of s with
             | [] => [OpenAIError ValueError]
             | digits =>
                 if (List.length digits <=? 4300)%nat
                    && forallb Text.isdecimal digits
                 then []
                 else [OpenAIError ValueError]
             end
         end.
Proof.
  intros W ext post w. rewrite score_post_with_ai_run.
  unfold trace, world_after. cbn [fst snd asks fetches deliveries error_logs].
  assert (Hquiet : forall r,
            asks match parse_reply r with
                 | Ret _ => []
                 | Raise e => [Log ERROR (OpenAIError e)]
                 end = []
            /\ fetches match parse_reply r with
                       | Ret _ => []
                       | Raise e => [Log ERROR (OpenAIError e)]
                       end = []
            /\ deliveries match parse_reply r with
                          | Ret _ => []
                          | Raise e => [Log ERROR (OpenAIError e)]
                          end = [])
    by (intros r; destruct (parse_reply r); now repeat split).
  destruct (Hquiet (fst (chat_completions_create ext (prompt_for post) w)))
    as (-> & -> & ->).
  repeat (split; [reflexivity|]).
  destruct (fst (chat_completions_create ext (prompt_for post) w))
    as [[[|[s|] others]]|e]; try reflexivity.
  unfold parse_reply. cbn [first_content choices strip_content].
  unfold int_of_digits, digits_of.
  rewrite int_of_digit_run_chars, chars_join_filter, digits_strip.
  destruct (filter Text.isdigit (list_ascii_of_string s)) as [|d digits];
    [reflexivity|].
  cbv zeta. change Text.int_max_str_digits with 4300%nat.
  destruct (List.length (d :: digits) <=? 4300)%nat; [|reflexivity].
  destruct (forallb Text.isdecimal (d :: digits)); reflexivity.
Qed.

(** ** [filter_with_ai] *)

(** X9: every candidate is scored, whatever the cap: the oracle is called
    once per candidate, in input order, each time with the prompt of that
    candidate, also for a cap of 0 or below; and filtering requests no
    listing and delivers nothing. *)
Theorem filter_asks_about_every_candidate :
  forall (W : Type) (ext : External W) (posts : list Post) (cap : Z) (w : W),
    asks (trace (filter_with_ai ext posts cap w)) = map prompt_for posts
    /\ fetches (trace (filter_with_ai ext posts cap w)) = []
    /\ deliveries (trace (filter_with_ai ext posts cap w)) = [].
Proof.
  intros W ext posts cap w.
  destruct (filter_with_ai_run ext posts cap w)
    as (out & w1 & t & Hrun & _ & Ha & Hd & Hf & _).
  rewrite Hrun. unfold trace. cbn [snd].
  split; [exact Ha|]. split; [exact Hf | exact Hd].
Qed.

(** X10: the selection is a part of the input: together with some rest it
    is a rearrangement of the candidates given, so no candidate is invented
    and none is selected more often than it was given. *)
Theorem selection_is_part_of_input :
  forall (W : Type) (ext : External W) (posts : list Post) (cap : Z) (w : W),
  exists out rest,
    result (filter_with_ai ext posts cap w) = Ret out
    /\ Permutation (out ++ rest) posts.
Proof.
  intros W ext posts cap w.
  destruct (selection_of_part (scores_given ext posts w) posts cap
              (scores_given_length ext posts w)) as [rest Hperm].
  exists (selection_of (scores_given ext posts w) posts cap), rest.
  split; [apply filter_with_ai_selected | exact Hperm].
Qed.

(** X11: when the cap is not reached, nothing positive is left out: if at
    most [cap] candidates are scored above 0, the selection is a
    rearrangement of exactly those candidates. *)
Theorem selection_complete_below_cap :
  forall (W : Type) (ext : External W) (posts : list Post) (cap : Z) (w : W),
    Z.of_nat (List.length (positive_scored (scores_given ext posts w) posts))
    <= cap ->
    exists out,
      result (filter_with_ai ext posts cap w) = Ret out
      /\ Permutation out
           (map snd (positive_scored (scores_given ext posts w) posts)).
Proof.
  intros W ext posts cap w Hcap.
  exists (selection_of (scores_given ext posts w) posts cap).
  split; [apply filter_with_ai_selected | now apply selection_of_all].
Qed.

Lemma selection_complete_below_cap_witness :
  Z.of_nat
    (List.length
       (positive_scored
          (scores_given (scripted no_feeds) three_posts
             ([reply "7"; reply "0"; reply "9"], []))
          three_posts))
  <= 10
  /\ exists out,
       result (filter_with_ai (scripted no_feeds) three_posts 10
                 ([reply "7"; reply "0"; reply "9"], [])) = Ret out
       /\ Permutation out
            [post_of "Netherlands" lamp; post_of "Netherlands" desk].
Proof.
  assert (Hcap :
    Z.of_nat
      (List.length
         (positive_scored
            (scores_given (scripted no_feeds) three_posts
               ([reply "7"; reply "0"; reply "9"], []))
            three_posts))
    <= 10) by (vm_compute; discriminate).
  split; [exact Hcap|].
  exact (selection_complete_below_cap Script (scripted no_feeds) three_posts
           10 ([reply "7"; reply "0"; reply "9"], []) Hcap).
Defined.

(** X12: a smaller cap only cuts the selection short: from the same state,
    the selection for a cap [k] is the first [k] items of the selection for
    any larger cap. *)
Theorem smaller_cap_selects_prefix :
  forall (W : Type) (ext : External W) (posts : list Post) (k k' : Z) (w : W),
    0 <= k <= k' ->
    exists out out',
      result (filter_with_ai ext posts k w) = Ret out
      /\ result (filter_with_ai ext posts k' w) = Ret out'
      /\ out = firstn (Z.to_nat k) out'.
Proof.
  intros W ext posts k k' w Hk.
  exists (selection_of (scores_given ext posts w) posts k),
         (selection_of (scores_given ext posts w) posts k').
  split; [apply filter_with_ai_selected|].
  split; [apply filter_with_ai_selected | now apply selection_of_prefix].
Qed.

Lemma smaller_cap_selects_prefix_witness :
  0 <= 1 <= 2
  /\ exists out out',
       result (filter_with_ai (scripted no_feeds) three_posts 1
                 ([reply "7"; reply "8"; reply "9"], [])) = Ret out
       /\ result (filter_with_ai (scripted no_feeds) three_posts 2
                    ([reply "7"; reply "8"; reply "9"], [])) = Ret out'
       /\ out = firstn (Z.to_nat 1) out'.
Proof.
  assert (Hk : 0 <= 1 <= 2) by lia.
  split; [exact Hk|].
  exact (smaller_cap_selects_prefix Script (scripted no_feeds) three_posts
           1 2 ([reply "7"; reply "8"; reply "9"], []) Hk).
Defined.

(** X13: a negative cap counts from the end, as the slice [scored[:k]]
    does for a negative [k]: the selection is the full ranking without its
    last [-k] items, so it holds that many items fewer, and none when the
    full ranking has no more than [-k]. *)
Theorem negative_cap_drops_from_the_end :
  forall (W : Type) (ext : External W) (posts : list Post) (cap : Z) (w : W),
    cap < 0 ->
    exists out full,
      result (filter_with_ai ext posts cap w) = Ret out
      /\ result (filter_with_ai ext posts (Z.of_nat (List.length posts)) w)
         = Ret full
      /\ out = firstn (Z.to_nat (Z.of_nat (List.length full) + cap)) full
      /\ List.length out = (List.length full - Z.to_nat (- cap))%nat.
Proof.
  intros W ext posts cap w Hcap.
  exists (selection_of (scores_given ext posts w) posts cap),
         (selection_of (scores_given ext posts w) posts
            (Z.of_nat (List.length posts))).
  split; [apply filter_with_ai_selected|].
  split; [apply filter_with_ai_selected|].
  pose proof (selection_of_negative (scores_given ext posts w) posts cap Hcap)
    as Hcut.
  split; [exact Hcut|].
  rewrite Hcut at 1. rewrite length_firstn. lia.
Qed.

Lemma negative_cap_drops_from_the_end_witness :
  -1 < 0
  /\ result (filter_with_ai (scripted no_feeds) three_posts (-1)
               ([reply "7"; reply "8"; reply "9"], []))
     = Ret [post_of "Netherlands" desk; post_of "Netherlands" chair].
Proof.
  assert (Hcap : -1 < 0) by lia.
  split; [exact Hcap|].
  destruct (negative_cap_drops_from_the_end Script (scripted no_feeds)
              three_posts (-1) ([reply "7"; reply "8"; reply "9"], []) Hcap)
    as (out & full & Hout & Hfull & Hcut & _).
  rewrite Hout, Hcut.
  assert (E : Ret full
              = Ret [post_of "Netherlands" desk; post_of "Netherlands" chair;
                     post_of "Netherlands" lamp])
    by (rewrite <- Hfull; reflexivity).
  injection E as ->. reflexivity.
Defined.

(** X14: the best candidate comes first.  With a cap of at least 1, the
    first selected candidate has a score that no candidate exceeds; and if
    nothing is selected, no candidate was scored above 0. *)
Theorem first_selected_has_top_score :
  forall (W : Type) (ext : External W) (posts : list Post) (cap : Z) (w : W),
    0 < cap ->
    exists (out : list Post) (sel : list (Z * nat)),
      result (filter_with_ai ext posts cap w) = Ret out
      /\ map Some out = map (fun si => nth_error posts (snd si)) sel
      /\ match sel with
         | [] => Forall (fun s => s <= 0) (scores_given ext posts w)
         | (s0, i0) :: _ =>
             nth_error (scores_given ext posts w) i0 = Some s0
             /\ Forall (fun s => s <= s0) (scores_given ext posts w)
         end.
Proof.
  intros W ext posts cap w Hcap.
  destruct (filter_with_ai_run ext posts cap w)
    as (out & w1 & t & Hrun & Hout & _).
  exists out, (ranked (scores_given ext posts w) cap).
  split; [now rewrite Hrun|]. split; [exact Hout|].
  pose proof (ranked_head_max (scores_given ext posts w) cap Hcap) as Hmax.
  pose proof (in_ranked (scores_given ext posts w) cap) as Hin.
  destruct (ranked (scores_given ext posts w) cap) as [|[s0 i0] tl].
  - exact Hmax.
  - split; [apply (Hin s0 i0); now left | exact Hmax].
Qed.

Lemma first_selected_has_top_score_witness :
  0 < 2
  /\ exists out,
       result (filter_with_ai (scripted no_feeds) three_posts 2
                 ([reply "7"; reply "9"; reply "8"], [])) = Ret out
       /\ hd_error out = Some (post_of "Netherlands" chair).
Proof.
  assert (Hcap : 0 < 2) by lia.
  split; [exact Hcap|].
  destruct (first_selected_has_top_score Script (scripted no_feeds)
              three_posts 2 ([reply "7"; reply "9"; reply "8"], []) Hcap)
    as (out & sel & Hout & _).
  exists out. split; [exact Hout|].
  assert (E : Ret out
              = Ret [post_of "Netherlands" chair; post_of "Netherlands" desk])
    by (rewrite <- Hout; reflexivity).
  injection E as ->. reflexivity.
Defined.

(** ** [send_to_slack] *)

(** X15: every failed delivery is logged once and nothing else is: the
    number of ERROR records [send_to_slack] writes equals the number of its
    delivery calls that did not come back with status 200. *)
Theorem every_failed_delivery_logged_once :
  forall (W : Type) (ext : External W) (posts : list Post) (w : W),
    List.length (error_logs (trace (send_to_slack ext posts w)))
    = List.length
        (filter (fun d => negb (delivered d))
                (deliveries (trace (send_to_slack ext posts w)))).
Proof.
  intros W ext posts. induction posts as [|post rest IH]; intros w.
  - reflexivity.
  - destruct (send_to_slack_step ext post rest w)
      as (log & -> & Hd & _ & _ & He).
    unfold trace at 1 3. cbn [snd error_logs deliveries filter].
    rewrite error_logs_app, deliveries_app, Hd, !length_app, He, IH.
    cbn [app].
    destruct (delivered _); reflexivity.
Qed.

(** X16: deliveries compose: sending one list and then another, from the
    state the first left, is sending the two lists joined: the same final
    state and the same events in the same order. *)
Theorem delivery_of_joined_lists :
  forall (W : Type) (ext : External W) (first second : list Post) (w : W),
    send_to_slack ext (first ++ second) w
    = (Ret tt,
       world_after
         (send_to_slack ext second (world_after (send_to_slack ext first w))),
       trace (send_to_slack ext first w)
       ++ trace
            (send_to_slack ext second
               (world_after (send_to_slack ext first w)))).
Proof.
  intros W ext first second.
  induction first as [|post rest IH]; intros w.
  - cbn [app send_to_slack]. unfold ret.
    change (world_after (Ret tt, w, @nil event)) with w.
    change (trace (Ret tt, w, @nil event)) with (@nil event).
    destruct (send_to_slack_run ext second w) as (w1 & t & Hrun & _).
    now rewrite Hrun.
  - cbn [app send_to_slack].
    unfold bind, try_except, ret, logging_error, emit, call_post.
    destruct (requests_post ext (SLACK_WEBHOOK_URL ext) (slack_message post) w)
      as [[res|e] w1].
    + destruct (negb (status_code res =? 200)); cbv beta iota zeta;
        rewrite (IH w1);
        destruct (send_to_slack ext rest w1) as [[r w2] t];
        unfold world_after, trace; cbn [fst snd app];
        now rewrite <- ?app_assoc.
    + cbv beta iota zeta. rewrite (IH w1).
      destruct (send_to_slack ext rest w1) as [[r w2] t].
      unfold world_after, trace. cbn [fst snd app].
      now rewrite <- ?app_assoc.
Qed.

(** ** [main] *)

(** X17: the early exit.  When the client is constructed and no source
    yields a keyword match, the run ends normally after the scan with the
    record "no keyword matches": every source was requested, the oracle was
    not called and nothing was delivered. *)
Theorem run_without_matches_stops_after_scan :
  forall (W : Type) (ext : External W) (subs keywords : list string)
         (cap : Z) (w w1 : W) (reddit : Reddit),
    praw_Reddit ext (REDDIT_CLIENT_ID ext) (REDDIT_CLIENT_SECRET ext)
      (REDDIT_USER_AGENT ext) w = (Ret reddit, w1) ->
    matches_of_all subs keywords (listings_served ext reddit subs w1) = [] ->
    exists t1,
      result (main_on ext subs keywords cap w) = Ret tt
      /\ trace (main_on ext subs keywords cap w)
         = Log INFO Starting :: Construct :: t1 ++ [Log INFO NoKeywordMatches]
      /\ fetches t1 = subs /\ asks t1 = [] /\ deliveries t1 = [].
Proof.
  intros W ext subs keywords cap w w1 reddit Hctor Hnone.
  destruct (main_on_stages ext subs keywords cap w reddit w1 Hctor)
    as (w2 & t1 & _ & Hf & Ha & Hd & _ & Hmain).
  rewrite Hnone in Hmain. rewrite Hmain.
  exists t1. now repeat split.
Qed.

Lemma run_without_matches_stops_after_scan_witness :
  praw_Reddit (scripted no_feeds) (REDDIT_CLIENT_ID (scripted no_feeds))
    (REDDIT_CLIENT_SECRET (scripted no_feeds))
    (REDDIT_USER_AGENT (scripted no_feeds)) ([reply "9"], [ok])
  = (Ret some_reddit, ([reply "9"], [ok]))
  /\ matches_of_all SUBREDDITS KEYWORDS
       (listings_served (scripted no_feeds) some_reddit SUBREDDITS
          ([reply "9"], [ok])) = []
  /\ exists t1,
       result (main (scripted no_feeds) ([reply "9"], [ok])) = Ret tt
       /\ trace (main (scripted no_feeds) ([reply "9"], [ok]))
          = Log INFO Starting :: Construct :: t1 ++ [Log INFO NoKeywordMatches]
       /\ fetches t1 = SUBREDDITS /\ asks t1 = [] /\ deliveries t1 = [].
Proof.
  split; [reflexivity|]. split; [reflexivity|].
  exact (run_without_matches_stops_after_scan Script (scripted no_feeds)
           SUBREDDITS KEYWORDS MAX_POSTS_PER_DAY ([reply "9"], [ok])
           ([reply "9"], [ok]) some_reddit eq_refl eq_refl).
Defined.

(** X18: the oracle is asked about the collected candidates and nothing
    else: once the client is constructed, the prompts of a run are those of
    the keyword matches of all sources, one each, in collection order. *)
Theorem run_asks_about_collected_candidates :
  forall (W : Type) (ext : External W) (subs keywords : list string)
         (cap : Z) (w w1 : W) (reddit : Reddit),
    praw_Reddit ext (REDDIT_CLIENT_ID ext) (REDDIT_CLIENT_SECRET ext)
      (REDDIT_USER_AGENT ext) w = (Ret reddit, w1) ->
    asks (trace (main_on ext subs keywords cap w))
    = map prompt_for
        (matches_of_all subs keywords (listings_served ext reddit subs w1)).
Proof.
  intros W ext subs keywords cap w w1 reddit Hctor.
  destruct (main_on_stages ext subs keywords cap w reddit w1 Hctor)
    as (w2 & t1 & _ & _ & Ha & _ & _ & Hmain).
  destruct (matches_of_all subs keywords (listings_served ext reddit subs w1))
    as [|m ms]; rewrite Hmain; unfold trace; cbn [snd asks].
  - rewrite asks_app, Ha. reflexivity.
  - destruct (filter_with_ai_calls ext (m :: ms) cap w2) as (Ha2 & _).
    destruct (notify_run ext
                (selection_of (scores_given ext (m :: ms) w2) (m :: ms) cap)
                (world_after (filter_with_ai ext (m :: ms) cap w2)))
      as (w4 & t4 & Hn & _ & Ha4 & _).
    rewrite !asks_app, Ha. unfold trace in Ha2. rewrite Ha2, Hn.
    cbn [snd app]. rewrite Ha4. apply app_nil_r.
Qed.

Lemma run_asks_about_collected_candidates_witness :
  praw_Reddit (scripted one_source) (REDDIT_CLIENT_ID (scripted one_source))
    (REDDIT_CLIENT_SECRET (scripted one_source))
    (REDDIT_USER_AGENT (scripted one_source)) ([], [])
  = (Ret some_reddit, ([], []))
  /\ asks (trace (main (scripted one_source) ([], [])))
     = map prompt_for three_posts.
Proof.
  split; [reflexivity|].
  exact (run_asks_about_collected_candidates Script (scripted one_source)
           SUBREDDITS KEYWORDS MAX_POSTS_PER_DAY ([], []) ([], [])
           some_reddit eq_refl).
Defined.

(** X19: the cap bounds the deliveries of a run: for a cap of at least 0,
    a run makes at most [cap] calls to the webhook, whatever the sources
    yield and the oracle answers; for [main], at most 10. *)
Theorem run_delivers_at_most_cap :
  forall (W : Type) (ext : External W) (subs keywords : list string)
         (cap : Z) (w : W),
    0 <= cap ->
    Z.of_nat (List.length (deliveries (trace (main_on ext subs keywords cap w))))
    <= cap.
Proof.
  intros W ext subs keywords cap w Hcap.
  pose proof (main_on_run ext subs keywords cap w) as Hrun.
  destruct (praw_Reddit ext (REDDIT_CLIENT_ID ext) (REDDIT_CLIENT_SECRET ext)
              (REDDIT_USER_AGENT ext) w) as [[reddit|e] w1].
  - destruct Hrun as (w2 & t & -> & _ & selection & wa & wb & Hsel & Hd & _).
    unfold trace. cbn [snd]. rewrite Hd, length_combine, length_map.
    rewrite webhook_answers_length, Nat.min_id.
    destruct Hsel as [->|Hsel]; [simpl; lia|].
    rewrite filter_with_ai_selected in Hsel. injection Hsel as <-.
    now apply selection_of_length.
  - rewrite Hrun. simpl. lia.
Qed.

Lemma run_delivers_at_most_cap_witness :
  0 <= MAX_POSTS_PER_DAY
  /\ Z.of_nat
       (List.length
          (deliveries
             (trace (main (scripted one_source)
                       ([reply "7"; reply "9"; reply "8"], second_fails)))))
     <= 10.
Proof.
  assert (Hcap : 0 <= MAX_POSTS_PER_DAY) by (unfold MAX_POSTS_PER_DAY; lia).
  split; [exact Hcap|].
  exact (run_delivers_at_most_cap Script (scripted one_source) SUBREDDITS
           KEYWORDS MAX_POSTS_PER_DAY
           ([reply "7"; reply "9"; reply "8"], second_fails) Hcap).
Defined.

(** X20: the count a run reports is the number of delivery calls it made:
    a run that reports "sent n" made exactly n calls to the webhook, with n
    at least 1, and a run that reports no count made none. *)
Theorem reported_count_is_number_of_calls :
  forall (W : Type) (ext : External W) (subs keywords : list string)
         (cap : Z) (w : W),
    match reported_sent (trace (main_on ext subs keywords cap w)) with
    | Some n =>
        List.length (deliveries (trace (main_on ext subs keywords cap w))) = n
        /\ (0 < n)%nat
    | None => deliveries (trace (main_on ext subs keywords cap w)) = []
    end.
Proof.
  intros W ext subs keywords cap w.
  pose proof (main_on_run ext subs keywords cap w) as Hrun.
  destruct (praw_Reddit ext (REDDIT_CLIENT_ID ext) (REDDIT_CLIENT_SECRET ext)
              (REDDIT_USER_AGENT ext) w) as [[reddit|e] w1].
  - destruct Hrun as (w2 & t & -> & _ & selection & wa & wb & _ & Hd & Hr).
    unfold trace. cbn [snd]. rewrite Hr, Hd.
    destruct selection as [|p ps]; [reflexivity|].
    rewrite length_combine, length_map, webhook_answers_length, Nat.min_id.
    split; [reflexivity | simpl; lia].
  - rewrite Hrun. reflexivity.
Qed.

(** X21: the stages of a run follow one another: every listing is
    requested before the oracle is first called, and every oracle call is
    made before the first delivery. *)
Theorem run_is_staged :
  forall (W : Type) (ext : External W) (subs keywords : list string)
         (cap : Z) (w : W),
    staged (trace (main_on ext subs keywords cap w)).
Proof.
  intros W ext subs keywords cap w. unfold staged.
  destruct (praw_Reddit ext (REDDIT_CLIENT_ID ext) (REDDIT_CLIENT_SECRET ext)
              (REDDIT_USER_AGENT ext) w) as [[reddit|e] w1] eqn:Hctor.
  - destruct (main_on_stages ext subs keywords cap w reddit w1 Hctor)
      as (w2 & t1 & _ & _ & Ha & Hd & _ & Hmain).
    destruct (matches_of_all subs keywords (listings_served ext reddit subs w1))
      as [|m ms]; rewrite Hmain; unfold trace at 1; cbn [snd].
    + exists (Log INFO Starting :: Construct
              :: t1 ++ [Log INFO NoKeywordMatches]), [], [].
      rewrite !app_nil_r. cbn [asks deliveries].
      rewrite asks_app, deliveries_app, Ha, Hd. now repeat split.
    + destruct (filter_with_ai_run ext (m :: ms) cap w2)
        as (out & w3 & t2 & Hrun & _ & _ & Hd2 & Hf2 & _).
      destruct (notify_run ext
                  (selection_of (scores_given ext (m :: ms) w2) (m :: ms) cap)
                  (world_after (filter_with_ai ext (m :: ms) cap w2)))
        as (w4 & t3 & Hn & _ & Ha3 & Hf3 & _).
      rewrite Hn. rewrite Hrun in *. unfold trace. cbn [snd].
      exists (Log INFO Starting :: Construct :: t1), t2, t3.
      cbn [asks deliveries app]. now repeat split.
  - pose proof (main_on_run ext subs keywords cap w) as Hrun.
    rewrite Hctor in Hrun. rewrite Hrun.
    exists [Log INFO Starting; Construct], [], []. now repeat split.
Qed.

(** X22: only collected candidates are delivered: once the client is
    constructed, every message a run sends to the webhook is the message of
    one of the keyword matches collected from the sources. *)
Theorem run_delivers_collected_candidates :
  forall (W : Type) (ext : External W) (subs keywords : list string)
         (cap : Z) (w w1 : W) (reddit : Reddit),
    praw_Reddit ext (REDDIT_CLIENT_ID ext) (REDDIT_CLIENT_SECRET ext)
      (REDDIT_USER_AGENT ext) w = (Ret reddit, w1) ->
    incl (map fst (deliveries (trace (main_on ext subs keywords cap w))))
         (map slack_message
            (matches_of_all subs keywords
               (listings_served ext reddit subs w1))).
Proof.
  intros W ext subs keywords cap w w1 reddit Hctor.
  destruct (main_on_stages ext subs keywords cap w reddit w1 Hctor)
    as (w2 & t1 & _ & _ & _ & Hd & _ & Hmain).
  destruct (matches_of_all subs keywords (listings_served ext reddit subs w1))
    as [|m ms]; rewrite Hmain; unfold trace at 1; cbn [snd deliveries].
  - rewrite deliveries_app, Hd. intros x [].
  - destruct (filter_with_ai_run ext (m :: ms) cap w2)
      as (out & w3 & t2 & Hrun & _ & _ & Hd2 & _).
    set (sel := selection_of (scores_given ext (m :: ms) w2) (m :: ms) cap).
    destruct (notify_run ext sel
                (world_after (filter_with_ai ext (m :: ms) cap w2)))
      as (w4 & t3 & Hn & Hd3 & _).
    rewrite Hn, Hrun. unfold trace. cbn [snd].
    rewrite !deliveries_app, Hd, Hd2, Hd3. cbn [app].
    match goal with
    | |- incl (map fst (combine ?messages ?answers)) _ =>
        destruct (split_combine_same_length messages answers) as [-> _]
    end.
    { now rewrite length_map, webhook_answers_length. }
    destruct (selection_of_part (scores_given ext (m :: ms) w2) (m :: ms) cap
                (scores_given_length ext (m :: ms) w2)) as [rest Hperm].
    intros msg Hin. apply in_map_iff in Hin as [p [<- Hp]]. apply in_map.
    apply (Permutation_in _ Hperm). apply in_or_app. now left.
Qed.

Lemma run_delivers_collected_candidates_witness :
  praw_Reddit (scripted one_source) (REDDIT_CLIENT_ID (scripted one_source))
    (REDDIT_CLIENT_SECRET (scripted one_source))
    (REDDIT_USER_AGENT (scripted one_source))
    ([reply "7"; reply "0"; reply "8"], second_fails)
  = (Ret some_reddit, ([reply "7"; reply "0"; reply "8"], second_fails))
  /\ incl
       (map fst
          (deliveries
             (trace (main (scripted one_source)
                       ([reply "7"; reply "0"; reply "8"], second_fails)))))
       (map slack_message three_posts).
Proof.
  split; [reflexivity|].
  exact (run_delivers_collected_candidates Script (scripted one_source)
           SUBREDDITS KEYWORDS MAX_POSTS_PER_DAY
           ([reply "7"; reply "0"; reply "8"], second_fails)
           ([reply "7"; reply "0"; reply "8"], second_fails)
           some_reddit eq_refl).
Defined.
